(** * level-serve: the URL codec, the namespace resolver and the gateway

    A shallow embedding of [index.js] of level-serve.  Two revisions of the
    file are covered: the first one, with the existence-only gateway
    (modules [Legacy] and [LegacyGateway]), and the later one, with
    [Server.prototype.store], the ETag probe and the error funnel (top
    level).

    JavaScript strings are [string]; an array is a [list]; indexing an
    array out of range gives [undefined], here [None]; an object used as a
    dictionary is a [gmap]. *)

From Stdlib Require Import Ascii ZArith.
From stdpp Require Import base option list strings gmap.

Local Open Scope Z_scope.

(** ** JavaScript primitives used by the source *)

(** The separator of every [split] of the source. *)
Definition slash : ascii := "/"%char.

(** [s.split(c)] for a one-character separator: the pieces between the
    occurrences of [c]; never the empty array ([''.split('/')] is ['']). *)
Fixpoint split (sep : ascii) (s : string) : list string :=
  match s with
  | EmptyString => [EmptyString]
  | String c s' =>
      if Ascii.eqb c sep then EmptyString :: split sep s'
      else match split sep s' with
           | x :: xs => String c x :: xs
           | [] => [String c EmptyString]
           end
  end.

(** [a.slice(b, e)] for [0 <= b] and [0 <= e]: the elements at the
    positions [b], ..., [e - 1] that exist. *)
Definition slice {A} (b e : nat) (a : list A) : list A :=
  drop b (take e a).

(** Truthiness of [a[i]] for an array of strings: [undefined] and the
    empty string are falsy, every other string is truthy. *)
Definition truthy (v : option string) : bool :=
  match v with
  | None => false
  | Some s => negb (String.eqb s "")
  end.

(** [a[i] != lit] for a string literal: [undefined] differs from every
    string. *)
Definition differs (v : option string) (lit : string) : bool :=
  match v with
  | None => true
  | Some s => negb (String.eqb s lit)
  end.

(** [a[a.length - 1]]. *)
Definition last_elt (a : list string) : option string :=
  a !! (length a - 1)%nat.

(** ** URL codec: decode *)

(** The object [parseURL] returns. *)
Record Query := mkQuery { id : string; sublevels : list string }.

(** [parseURL] of the later revision: the guard reads [segs[1]] and
    [segs[2]] of the whole split. *)
Definition parseURL (url : string) : option Query :=
  let segs := split slash url in
  if differs (segs !! 1%nat) "files" || negb (truthy (segs !! 2%nat)) then None
  else
    match last_elt segs with
    | Some i => Some (mkQuery i (slice 2 (length segs - 1) segs))
    | None => None
    end.

Module Legacy.

(** [parseURL] of the first revision: the leading piece is sliced off
    before the guard. *)
Definition parseURL (url : string) : option Query :=
  let segs := slice 1 (length (split slash url)) (split slash url) in
  if differs (segs !! 0%nat) "files" || negb (truthy (segs !! 1%nat)) then None
  else
    match last_elt segs with
    | Some i => Some (mkQuery i (slice 1 (length segs - 1) segs))
    | None => None
    end.

End Legacy.

(** ** Store handles and the namespace resolver *)

(** A store handle: the root, which has no [_parent], or the sublevel that
    its [_parent] hands out for the name [_prefix]. *)
Inductive DB : Type :=
  | Root
  | Sub (_parent : DB) (_prefix : string).

(** [a == b] on handles. *)
Fixpoint DB_eqb (a b : DB) : bool :=
  match a, b with
  | Root, Root => true
  | Sub pa xa, Sub pb xb => String.eqb xa xb && DB_eqb pa pb
  | _, _ => false
  end.

(** Modelled from the spec: [db.sublevel(name)] of the external store,
    which hands out the child partition of [db] selected by [name], with
    the back-reference to [db] and the selecting name. *)
Definition sublevel (db : DB) (name : string) : DB := Sub db name.

(** [resolveSubLevel]: one [sublevel] step per name, outer to inner. *)
Fixpoint resolveSubLevel (db : DB) (sublevels : list string) : DB :=
  match sublevels with
  | [] => db
  | n :: rest => resolveSubLevel (sublevel db n) rest
  end.

(** ** URL codec: encode *)

(** The [while] loop of [Server.prototype.url]: it runs while the handle
    has a parent other than itself, and prepends the selecting name. *)
Fixpoint url_loop (db : DB) (sublevels : string) : string :=
  match db with
  | Root => sublevels
  | Sub p x =>
      if DB_eqb p db then sublevels
      else url_loop p (x +:+ "/" +:+ sublevels)
  end.

(** [Server.prototype.url], with the [db] field of the server as [db]. *)
Definition url (db : DB) (id : string) : string :=
  "/files/" +:+ url_loop db "" +:+ id.

(** The path [/files/n1/.../nk/id] written out. *)
Fixpoint join_segs (names : list string) (id : string) : string :=
  match names with
  | [] => id
  | n :: rest => n +:+ "/" +:+ join_segs rest id
  end.

Definition path_of (names : list string) (id : string) : string :=
  "/files/" +:+ join_segs names id.

(** A name that [split] keeps in one piece. *)
Fixpoint no_slash (s : string) : bool :=
  match s with
  | EmptyString => true
  | String c s' => negb (Ascii.eqb c slash) && no_slash s'
  end.

(** What [parseURL] computes, read off the list of pieces. *)
Definition decode_segs (segs : list string) : option Query :=
  match segs with
  | _ :: f :: x :: rest =>
      if String.eqb f "files" && negb (String.eqb x "")
      then Some (mkQuery (List.last rest x) (removelast (x :: rest)))
      else None
  | _ => None
  end.

(** Follows the spec's words, for comparison with the guard of [parseURL]:
    a path is valid iff its first segment is the literal prefix and at
    least one further segment exists.  The piece before the leading
    separator is not a segment. *)
Definition spec_valid (u : string) : bool :=
  match split slash u with
  | _ :: f :: _ :: _ => String.eqb f "files"
  | _ => false
  end.

(** The guard of [parseURL], read off the pieces of the split: the piece
    after the leading one is the prefix, and the next one exists and is
    not empty. *)
Definition accepted (u : string) : Prop :=
  split slash u !! 1%nat = Some "files" /\
  exists x, split slash u !! 2%nat = Some x /\ x <> "".

(** ** Errors, responses and the world of one request *)

(** A JavaScript error object: its [name] and its [message]. *)
Record JsError := mkError { ename : string; message : string }.

(** [new Error(msg)]. *)
Definition Error (msg : string) : JsError := mkError "Error" msg.

(** [Error.prototype.toString]. *)
Definition toString (e : JsError) : string :=
  if String.eqb (ename e) "" then message e
  else if String.eqb (message e) "" then ename e
  else ename e +:+ ": " +:+ message e.

(** A header value: [setHeader] is given a string or a number. *)
Inductive hvalue : Type :=
  | HStr (s : string)
  | HNum (n : Z).

(** The part of [http.ServerResponse] the gateway drives.  A response
    starts with [statusCode] 200, which is what is sent when the status
    is never set. *)
Record Response := mkResponse {
  statusCode : Z;
  resHeaders : gmap string hvalue;
  headersSent : bool;
  body : string;
  finished : bool
}.

Definition fresh_response : Response := mkResponse 200 ∅ false "" false.

(** [res.writeHead(code, headers)]; [writeHead(code)] passes no headers. *)
Definition writeHead (code : Z) (hs : gmap string hvalue) (r : Response) : Response :=
  mkResponse code (hs ∪ resHeaders r) true (body r) (finished r).

(** [res.setHeader(k, v)]. *)
Definition setHeader (k : string) (v : hvalue) (r : Response) : Response :=
  mkResponse (statusCode r) (<[k := v]> (resHeaders r)) (headersSent r)
    (body r) (finished r).

(** [res.statusCode = code]. *)
Definition setStatus (code : Z) (r : Response) : Response :=
  mkResponse code (resHeaders r) (headersSent r) (body r) (finished r).

(** [res.end(data)]; [res.end()] is [end_ ""]. *)
Definition end_ (data : string) (r : Response) : Response :=
  mkResponse (statusCode r) (resHeaders r) true (body r +:+ data) true.

(** A read the gateway opens on the store: the handle, the key and
    whether it is the probe (the metadata read with [index: true] and
    [limit: 1], or [exists] in the first revision) or the payload read. *)
Record Read := mkRead { read_db : DB; read_id : string; read_probe : bool }.

(** What one request can change: the response, the lines written with
    [console.error], and the reads opened on the store. *)
Record World := mkWorld {
  res : Response;
  console : list JsError;
  reads : list Read
}.

Definition fresh_world : World := mkWorld fresh_response [] [].

Definition on_res (f : Response -> Response) (w : World) : World :=
  mkWorld (f (res w)) (console w) (reads w).

Definition console_error (e : JsError) (w : World) : World :=
  mkWorld (res w) (console w ++ [e]) (reads w).

Definition open_read (r : Read) (w : World) : World :=
  mkWorld (res w) (console w) (reads w ++ [r]).

(** An error callback: the one of [createError] or the caller's own. *)
Definition Handler : Type := JsError -> World -> World.

(** The request: its path and its header dictionary, which may be
    missing. *)
Record Request := mkRequest {
  req_url : string;
  req_headers : option (gmap string string)
}.

(** What the store holds under a key of a handle: nothing, an object with
    its version marker and bytes, or a failure of the backend. *)
Inductive Lookup : Type :=
  | Missing
  | Stored (index : Z) (data : string)
  | Broken (e : JsError).

(** The events of a read stream. *)
Inductive StreamEvent : Type :=
  | EvData (index : Z)
  | EvEnd
  | EvError (e : JsError).

(** Modelled from the spec: the events of the metadata probe
    [createReadStream(id, {limit: 1, reverse: false, index: true})] of the
    external store: the marker and the end for a stored object, the end
    with no data for an absent one, an error for a backend failure. *)
Definition probe_events (l : Lookup) : list StreamEvent :=
  match l with
  | Missing => [EvEnd]
  | Stored i _ => [EvData i; EvEnd]
  | Broken e => [EvError e]
  end.

(** Modelled from the spec: [createReadStream(id).pipe(res)] of the
    external store writes the bytes of a stored object to the response and
    ends it; an absent object ends it with no bytes; a failing read writes
    nothing. *)
Definition pipe (l : Lookup) (r : Response) : Response :=
  match l with
  | Missing => end_ "" r
  | Stored _ d => end_ d r
  | Broken _ => r
  end.

(** Modelled from the spec: [store.exists(id, cb)] of the external store
    calls back with an error, or with the presence of the key. *)
Definition exists_result (l : Lookup) : option JsError * bool :=
  match l with
  | Missing => (None, false)
  | Stored _ _ => (None, true)
  | Broken e => (Some e, false)
  end.

(** ** The gateway *)

Section Gateway.

(** The MIME inference of [simple-mime], applied to the id. *)
Variable mime : string -> string.

(** The conversion of a header string to a number that [==] applies when
    the other side is a number; [None] when the result is no integer. *)
Variable StringToNumber : string -> option Z.

(** [process.env.NODE_ENV]. *)
Variable NODE_ENV : option string.

(** The contents of the store, per handle and key. *)
Variable contents : DB -> string -> Lookup.

(** [etag == mtime] for a header value, [undefined] or a string, and a
    number. *)
Definition loose_eq (etag : option string) (mtime : Z) : bool :=
  match etag with
  | None => false
  | Some s =>
      match StringToNumber s with
      | Some n => Z.eqb n mtime
      | None => false
      end
  end.

(** [createError(req, res)]. *)
Definition createError : Handler := fun err w =>
  let w := on_res (writeHead 500 ∅) w in
  if differs NODE_ENV "production"
  then on_res (end_ (toString err)) (console_error err w)
  else on_res (end_ "oops.") w.

(** [createNotFound(req, res, error)] of the later revision. *)
Definition createNotFound (error : option Handler) : World -> World :=
  match error with
  | Some error => fun w => error (Error "File not found.") w
  | None => fun w => on_res (end_ "File not found.") (on_res (writeHead 404 ∅) w)
  end.

(** [req.headers && req.headers['if-none-match']]. *)
Definition if_none_match (req : Request) : option string :=
  match req_headers req with
  | None => None
  | Some hs => hs !! "if-none-match"
  end.

(** The inner function [send(mtime)] of [serve]. *)
Definition send (req : Request) (store : DB) (query : Query) (mtime : Z)
    (w : World) : World :=
  let w := on_res (setHeader "Content-Type" (HStr (mime (id query)))) w in
  let w := on_res (setHeader "ETag" (HNum mtime)) w in
  let etag := if_none_match req in
  if loose_eq etag mtime
  then on_res (end_ "") (on_res (setStatus 304) w)
  else on_res (pipe (contents store (id query)))
         (open_read (mkRead store (id query) false) w).

(** The state the listeners of the probe share: [found], whether the
    [once] listener is still attached, and the world. *)
Record Probe := mkProbe { found : bool; listening : bool; world : World }.

(** One event of the probe stream, given to the listeners [serve]
    attaches: [once('data')], [on('end')], [on('error')]. *)
Definition on_event (req : Request) (store : DB) (query : Query)
    (error : Handler) (notFound : World -> World)
    (p : Probe) (ev : StreamEvent) : Probe :=
  match ev with
  | EvData i =>
      if listening p
      then mkProbe true false (send req store query i (world p))
      else p
  | EvEnd =>
      if found p then p
      else mkProbe (found p) (listening p) (notFound (world p))
  | EvError e => mkProbe (found p) (listening p) (error e (world p))
  end.

(** [Server.prototype.serve] of the later revision, on the server's
    root handle [db]. *)
Definition serve (db : DB) (req : Request) (error : option Handler)
    (w : World) : World :=
  let error := match error with Some f => f | None => createError end in
  let notFound := createNotFound (Some error) in
  if String.eqb (req_url req) "/favicon.ico" then on_res (end_ "") w
  else
    match parseURL (req_url req) with
    | None => notFound w
    | Some query =>
        let store := resolveSubLevel db (sublevels query) in
        let w := open_read (mkRead store (id query) true) w in
        world (foldl (on_event req store query error notFound)
                 (mkProbe false true w)
                 (probe_events (contents store (id query))))
    end.

End Gateway.

Module LegacyGateway.
Section Gateway.

Variable mime : string -> string.
Variable NODE_ENV : option string.
Variable contents : DB -> string -> Lookup.

(** [createNotFound(req, res)] of the first revision. *)
Definition createNotFound : World -> World := fun w =>
  on_res (end_ "File not found.") (on_res (writeHead 404 ∅) w).

(** [serve] of the first revision: an existence check, then the
    payload. *)
Definition serve (db : DB) (req : Request) (error : option Handler)
    (w : World) : World :=
  let error := match error with Some f => f | None => createError NODE_ENV end in
  let notFound := createNotFound in
  if String.eqb (req_url req) "/favicon.ico" then on_res (end_ "") w
  else
    match Legacy.parseURL (req_url req) with
    | None => notFound w
    | Some query =>
        let store := resolveSubLevel db (sublevels query) in
        let w := open_read (mkRead store (id query) true) w in
        match exists_result (contents store (id query)) with
        | (Some err, _) => error err w
        | (None, false) => notFound w
        | (None, true) =>
            let w := on_res (writeHead 200
                       {["Content-Type" := HStr (mime (id query))]}) w in
            on_res (pipe (contents store (id query)))
              (open_read (mkRead store (id query) false) w)
        end
    end.

End Gateway.
End LegacyGateway.

(** ** The write entry point *)

(** The events of the write stream that [store] listens to. *)
Inductive WriteEvent : Type :=
  | WsError (err : JsError)
  | WsClose.

Section Store.

(** The state of the caller, which the completion callback may change. *)
Variable A : Type.

(** The completion callback: [fn(err)] is [fn (Some err)], [fn()] is
    [fn None]. *)
Definition Callback : Type := option JsError -> A -> A.

(** The variable [called] of one call of [store], and the caller. *)
Record Completion := mkCompletion { called : bool; caller : A }.

(** The listener of ['error']. *)
Definition on_error (fn : option Callback) (err : JsError) (c : Completion)
    : Completion :=
  match fn with
  | None => c
  | Some fn =>
      if called c then c else mkCompletion true (fn (Some err) (caller c))
  end.

(** The listener of ['close']. *)
Definition on_close (fn : option Callback) (c : Completion) : Completion :=
  match fn with
  | None => c
  | Some fn =>
      if called c then c else mkCompletion true (fn None (caller c))
  end.

Definition on_write_event (fn : option Callback) (c : Completion)
    (ev : WriteEvent) : Completion :=
  match ev with
  | WsError err => on_error fn err c
  | WsClose => on_close fn c
  end.

(** [Server.prototype.store(id, data, fn)], run against the events the
    write stream emits after the data is written and the stream ended. *)
Definition store (fn : option Callback) (events : list WriteEvent) (a : A)
    : Completion :=
  foldl (on_write_event fn) (mkCompletion false a) events.

End Store.

Arguments mkCompletion {A} _ _.
Arguments called {A} _.
Arguments caller {A} _.
Arguments on_error {A} _ _ _.
Arguments on_close {A} _ _.
Arguments on_write_event {A} _ _ _.
Arguments store {A} _ _ _.

(** What the first event passes to the callback. *)
Definition completion_arg (ev : WriteEvent) : option JsError :=
  match ev with
  | WsError err => Some err
  | WsClose => None
  end.

(** A callback that records its arguments, one entry per invocation. *)
Definition record_call : Callback (list (option JsError)) :=
  fun arg log => log ++ [arg].

(** ** The constructor *)

(** The prototype an object inherits from. *)
Inductive Proto : Type :=
  | ServerPrototype
  | ObjectPrototype.

(** An object: its prototype, its own property [db] when set, and whether
    it has an own property [serve]. *)
Record Obj := mkObj { proto : Proto; own_db : option DB; own_serve : bool }.

(** A value bound to [this] or returned: [undefined] or an object. *)
Inductive Value : Type :=
  | Undefined
  | Object (o : Obj).

(** [v instanceof Server]. *)
Definition instanceof_Server (v : Value) : bool :=
  match v with
  | Undefined => false
  | Object o => match proto o with ServerPrototype => true | ObjectPrototype => false end
  end.

(** [new F(db)] for a function with the body [body]: the body runs with a
    fresh object that inherits from [Server.prototype] as [this]; the
    result is the object the body returns, or [this] when it returns none.
    A body gives its return value and [this] as it leaves it. *)
Definition construct (body : Value -> DB -> option (Value * Value)) (db : DB)
    : option Obj :=
  match body (Object (mkObj ServerPrototype None false)) db with
  | Some (Object o, _) => Some o
  | Some (Undefined, Object o) => Some o
  | _ => None
  end.

(** The function [Server]: its return value and [this] afterwards.  The
    first revision also binds [serve] on the instance ([binds_serve]); the
    later one has it on the prototype.  [fuel] bounds the nested calls. *)
Fixpoint Server (binds_serve : bool) (fuel : nat) (this : Value) (db : DB)
    : option (Value * Value) :=
  match fuel with
  | O => None
  | S fuel =>
      if negb (instanceof_Server this)
      then match construct (Server binds_serve fuel) db with
           | Some o => Some (Object o, this)
           | None => None
           end
      else match this with
           | Object o =>
               Some (Undefined, Object (mkObj (proto o) (Some db)
                                          (binds_serve || own_serve o)))
           | Undefined => None
           end
  end.

(** [new Server(db)]. *)
Definition new_Server (binds_serve : bool) (fuel : nat) (db : DB) : option Obj :=
  construct (Server binds_serve fuel) db.

(** ** Sample inputs *)

(** A conversion that reads decimal numerals, to run the gateway on
    examples: the empty string is 0, a string of digits is its value. *)
Fixpoint decimal_digits (s : string) (acc : Z) : option Z :=
  match s with
  | EmptyString => Some acc
  | String c s' =>
      let n := Z.of_nat (nat_of_ascii c) in
      if (48 <=? n) && (n <=? 57) then decimal_digits s' (10 * acc + (n - 48))
      else None
  end.

Definition decimal_to_number (s : string) : option Z := decimal_digits s 0.

Definition octet_stream (_ : string) : string := "application/octet-stream".

(** The store of the scenario: the object [42] of the root, with the
    marker 7. *)
Definition scenario_store (db : DB) (key : string) : Lookup :=
  match db with
  | Root => if String.eqb key "42" then Stored 7 "blob" else Missing
  | Sub _ _ => Missing
  end.

Definition GET (path : string) (hs : list (string * string)) : Request :=
  mkRequest path (Some (list_to_map hs)).

(** A store whose backend fails on every read. *)
Definition broken_store (_ : DB) (_ : string) : Lookup :=
  Broken (mkError "OpenError" "IO error: lock").

(** The headers [send] sets. *)
Definition sent_headers (mime : string -> string) (q : Query) (mtime : Z)
    : gmap string hvalue :=
  <["ETag" := HNum mtime]> (<["Content-Type" := HStr (mime (id q))]> ∅).

(** ** Definitions for the further properties *)

(** [a.join('/')]: the pieces with a separator between neighbours. *)
Fixpoint join (segs : list string) : string :=
  match segs with
  | [] => ""
  | [x] => x
  | x :: rest => x +:+ "/" +:+ join rest
  end.

(** The number of separators in a string. *)
Fixpoint count_slash (s : string) : nat :=
  match s with
  | EmptyString => O
  | String c s' => if Ascii.eqb c slash then S (count_slash s') else count_slash s'
  end.

(** The names on the way from the root to a handle, outermost first: what
    the loop of [url] collects from [_prefix] while it follows
    [_parent]. *)
Fixpoint chain_of (db : DB) : list string :=
  match db with
  | Root => []
  | Sub p x => chain_of p ++ [x]
  end.

(** A callback that records the error and leaves the response alone. *)
Definition record_error : Handler := fun e w => console_error e w.

(** The errors among the events of a stream. *)
Fixpoint errors_of (events : list StreamEvent) : list JsError :=
  match events with
  | [] => []
  | EvError e :: rest => e :: errors_of rest
  | _ :: rest => errors_of rest
  end.

(** The error callback [serve] ends up with. *)
Definition effective_error (NODE_ENV : option string) (error : option Handler)
    : Handler :=
  match error with
  | Some f => f
  | None => createError NODE_ENV
  end.

(** The response of the default error handler on a fresh response. *)
Definition response_500 (NODE_ENV : option string) (e : JsError) : Response :=
  mkResponse 500 ∅ true
    (if decide (NODE_ENV = Some "production") then "oops." else toString e) true.

(** A store that holds one object, in the namespace [photos] of the
    root. *)
Definition photo_store (db : DB) (key : string) : Lookup :=
  if DB_eqb db (Sub Root "photos") && String.eqb key "cat.png"
  then Stored 3 "PNG" else Missing.

(** ** Examples *)

Example parseURL_root : parseURL "/files/42" = Some (mkQuery "42" []).
Proof. reflexivity. Qed.

Example parseURL_nested : parseURL "/files/a/b/42" = Some (mkQuery "42" ["a"; "b"]).
Proof. reflexivity. Qed.

Example parseURL_nonsense : parseURL "/nonsense" = None.
Proof. reflexivity. Qed.

Example url_nested : url (resolveSubLevel Root ["a"; "b"]) "42" = "/files/a/b/42".
Proof. reflexivity. Qed.

Example scenario_200 :
  res (serve octet_stream decimal_to_number None scenario_store Root
         (GET "/files/42" []) None fresh_world)
  = mkResponse 200
      (<["ETag" := HNum 7]> {["Content-Type" := HStr "application/octet-stream"]})
      true "blob" true.
Proof. vm_compute. reflexivity. Qed.

Example scenario_304 :
  res (serve octet_stream decimal_to_number None scenario_store Root
         (GET "/files/42" [("if-none-match", "7")]) None fresh_world)
  = mkResponse 304
      (<["ETag" := HNum 7]> {["Content-Type" := HStr "application/octet-stream"]})
      true "" true.
Proof. vm_compute. reflexivity. Qed.

Example store_error_then_close :
  caller (store (Some record_call) [WsError (Error "disk"); WsClose] [])
    = [Some (Error "disk")].
Proof. reflexivity. Qed.

Example store_close_then_error :
  caller (store (Some record_call) [WsClose; WsError (Error "disk")] []) = [None].
Proof. reflexivity. Qed.

(** ** Lemmas on [split], [slice] and the segments *)

Section Segments.

Lemma split_nonempty (s : string) : split slash s <> [].
Proof.
  destruct s as [|c s]; simpl; [discriminate|].
  destruct (Ascii.eqb c slash); [discriminate|].
  destruct (split slash s); discriminate.
Qed.

Lemma split_no_slash (s : string) : no_slash s = true -> split slash s = [s].
Proof.
  induction s as [|c s IH]; simpl; [reflexivity|].
  intros H. apply andb_true_iff in H as [Hc Hs].
  apply negb_true_iff in Hc. rewrite Hc, (IH Hs). reflexivity.
Qed.

Lemma split_cons_slash (s : string) :
  split slash (String slash s) = "" :: split slash s.
Proof. reflexivity. Qed.

Lemma split_name_slash (a rest : string) :
  no_slash a = true ->
  split slash (a +:+ "/" +:+ rest) = a :: split slash rest.
Proof.
  induction a as [|c a IH]; simpl; intros H; [reflexivity|].
  apply andb_true_iff in H as [Hc Ha].
  apply negb_true_iff in Hc. rewrite Hc.
  simpl in IH. rewrite (IH Ha). reflexivity.
Qed.

Lemma split_join_segs (names : list string) (i : string) :
  forallb no_slash names = true -> no_slash i = true ->
  split slash (join_segs names i) = names ++ [i].
Proof.
  induction names as [|n names IH]; simpl; intros Hn Hi.
  - apply split_no_slash, Hi.
  - apply andb_true_iff in Hn as [Hn Hns].
    rewrite (split_name_slash n _ Hn), (IH Hns Hi). reflexivity.
Qed.

Lemma split_path_of (names : list string) (i : string) :
  forallb no_slash names = true -> no_slash i = true ->
  split slash (path_of names i) = "" :: "files" :: names ++ [i].
Proof.
  intros Hn Hi. unfold path_of.
  change ("/files/" +:+ join_segs names i)
    with (String slash ("files" +:+ "/" +:+ join_segs names i)).
  rewrite split_cons_slash, split_name_slash by reflexivity.
  rewrite split_join_segs by assumption. reflexivity.
Qed.

Lemma last_cons_default {A} (l : list A) (a d : A) :
  List.last (a :: l) d = List.last l a.
Proof.
  revert a d. induction l as [|b l IH]; intros a d; [reflexivity|].
  change (List.last (a :: b :: l) d) with (List.last (b :: l) d).
  rewrite (IH b d), (IH b a). reflexivity.
Qed.

Lemma lookup_length_last (a : string) (l : list string) :
  (a :: l) !! length l = Some (List.last l a).
Proof.
  revert a. induction l as [|b l IH]; intros a; [reflexivity|].
  cbn [length].
  change ((a :: b :: l) !! S (length l)) with ((b :: l) !! length l).
  rewrite IH, last_cons_default. reflexivity.
Qed.

Lemma last_elt_cons (a : string) (l : list string) :
  last_elt (a :: l) = Some (List.last l a).
Proof.
  unfold last_elt. cbn [length]. rewrite Nat.sub_succ, Nat.sub_0_r.
  apply lookup_length_last.
Qed.

Lemma take_length_removelast {A} (l : list A) :
  take (length l - 1) l = removelast l.
Proof.
  induction l as [|a l IH]; [reflexivity|].
  cbn [length]. rewrite Nat.sub_succ, Nat.sub_0_r.
  destruct l as [|b l]; [reflexivity|].
  cbn [length] in *. rewrite Nat.sub_succ, Nat.sub_0_r in IH.
  change (take (S (length l)) (a :: b :: l))
    with (a :: take (length l) (b :: l)).
  rewrite IH. reflexivity.
Qed.

Lemma parseURL_decode_segs (u : string) :
  parseURL u = decode_segs (split slash u).
Proof.
  unfold parseURL.
  destruct (split slash u) as [|s0 [|f [|x rest]]] eqn:E; try reflexivity.
  - destruct (differs _ _); reflexivity.
  - cbn [lookup list_lookup differs truthy decode_segs].
    destruct (String.eqb f "files"); cbn [negb orb andb]; [|reflexivity].
    destruct (String.eqb x ""); cbn [negb]; [reflexivity|].
    rewrite last_elt_cons, !last_cons_default. unfold slice.
    rewrite take_length_removelast.
    change (removelast (s0 :: f :: x :: rest))
      with (s0 :: f :: removelast (x :: rest)).
    reflexivity.
Qed.

Lemma Legacy_parseURL_eq (u : string) : Legacy.parseURL u = parseURL u.
Proof.
  unfold Legacy.parseURL, parseURL, slice.
  rewrite firstn_all.
  destruct (split slash u) as [|a [|b r]]; try reflexivity.
  cbn [drop lookup list_lookup].
  destruct (differs (Some b) "files" || negb (truthy (r !! 0%nat))); [reflexivity|].
  rewrite !last_elt_cons, last_cons_default.
  cbn [length]. rewrite !Nat.sub_succ, !Nat.sub_0_r.
  reflexivity.
Qed.

Lemma decode_segs_path (s0 : string) (names : list string) (i : string) :
  decode_segs (s0 :: "files" :: names ++ [i]) =
    if String.eqb (List.hd i names) "" then None else Some (mkQuery i names).
Proof.
  destruct names as [|n names]; cbn [app decode_segs List.hd].
  - cbn [String.eqb Ascii.eqb Bool.eqb andb].
    destruct (String.eqb i ""); reflexivity.
  - change (String.eqb "files" "files") with true. cbn [andb].
    destruct (String.eqb n ""); cbn [negb]; [reflexivity|].
    rewrite List.last_last.
    change (n :: names ++ [i]) with ((n :: names) ++ [i]).
    rewrite List.removelast_last. reflexivity.
Qed.

Lemma parseURL_path_of (names : list string) (i : string) :
  forallb no_slash names = true -> no_slash i = true ->
  parseURL (path_of names i) =
    if String.eqb (List.hd i names) "" then None else Some (mkQuery i names).
Proof.
  intros Hn Hi.
  rewrite parseURL_decode_segs, split_path_of by assumption.
  apply decode_segs_path.
Qed.

End Segments.

Lemma decode_segs_accepts (segs : list string) :
  is_Some (decode_segs segs) <->
  segs !! 1%nat = Some "files" /\ exists x, segs !! 2%nat = Some x /\ x <> "".
Proof.
  destruct segs as [|s0 [|f [|x rest]]]; cbn [decode_segs lookup list_lookup].
  1-3: split; [intros [q Hq]; discriminate | intros [H1 [x [H2 _]]]; discriminate].
  destruct (String.eqb f "files") eqn:Ef; destruct (String.eqb x "") eqn:Ex;
    cbn [andb negb].
  - apply String.eqb_eq in Ex. split; [intros [q Hq]; discriminate|].
    intros [_ [y [Hy Hne]]]. injection Hy as <-. contradiction.
  - apply String.eqb_eq in Ef. apply String.eqb_neq in Ex. subst f.
    split; [intros _; split; [reflexivity | exists x; auto] | intros _; eexists; reflexivity].
  - apply String.eqb_neq in Ef. split; [intros [q Hq]; discriminate|].
    intros [Hf _]. injection Hf as Hf. contradiction.
  - apply String.eqb_neq in Ef. split; [intros [q Hq]; discriminate|].
    intros [Hf _]. injection Hf as Hf. contradiction.
Qed.

(** ** Lemmas on the handles and on [url] *)

Section Handles.

Lemma DB_eqb_eq (a b : DB) : DB_eqb a b = true -> a = b.
Proof.
  revert b. induction a as [|pa IH xa]; intros [|pb xb]; simpl;
    try discriminate; [reflexivity|].
  intros H. apply andb_true_iff in H as [Hx Hp].
  apply String.eqb_eq in Hx. rewrite Hx, (IH pb Hp). reflexivity.
Qed.

Lemma Sub_neq_parent (p : DB) (x : string) : Sub p x <> p.
Proof.
  revert x. induction p as [|p IH y]; intros x; [discriminate|].
  intros H. injection H as Hp _. exact (IH _ Hp).
Qed.

(** The guard [db._parent != db] of the loop never stops it early. *)
Lemma DB_eqb_parent (p : DB) (x : string) : DB_eqb p (Sub p x) = false.
Proof.
  destruct (DB_eqb p (Sub p x)) eqn:E; [|reflexivity].
  apply DB_eqb_eq in E. symmetry in E. destruct (Sub_neq_parent _ _ E).
Qed.

Lemma url_loop_Sub (p : DB) (x acc : string) :
  url_loop (Sub p x) acc = url_loop p (x +:+ "/" +:+ acc).
Proof. cbn [url_loop]. rewrite DB_eqb_parent. reflexivity. Qed.

Lemma url_loop_resolve (names : list string) (db : DB) (acc : string) :
  url_loop (resolveSubLevel db names) acc = url_loop db (join_segs names acc).
Proof.
  revert db acc. induction names as [|n names IH]; intros db acc;
    [reflexivity|].
  cbn [resolveSubLevel join_segs]. unfold sublevel.
  rewrite IH, url_loop_Sub. reflexivity.
Qed.

Lemma append_assoc (a b c : string) : (a +:+ b) +:+ c = a +:+ (b +:+ c).
Proof.
  induction a as [|x a IH]; [reflexivity|].
  change (String x ((a +:+ b) +:+ c) = String x (a +:+ (b +:+ c))).
  rewrite IH. reflexivity.
Qed.

Lemma join_segs_append (names : list string) (a b : string) :
  join_segs names a +:+ b = join_segs names (a +:+ b).
Proof.
  induction names as [|n names IH]; [reflexivity|].
  cbn [join_segs]. rewrite !append_assoc, IH. reflexivity.
Qed.

Lemma url_resolved (names : list string) (i : string) :
  url (resolveSubLevel Root names) i = path_of names i.
Proof.
  unfold url, path_of. rewrite url_loop_resolve. cbn [url_loop].
  rewrite join_segs_append. reflexivity.
Qed.

End Handles.

(** ** Lemmas on the gateway and on [store] *)

Lemma parseURL_not_favicon (u : string) (q : Query) :
  parseURL u = Some q -> String.eqb u "/favicon.ico" = false.
Proof.
  intros H. destruct (String.eqb u "/favicon.ico") eqn:E; [|reflexivity].
  apply String.eqb_eq in E. subst u. discriminate H.
Qed.

Section GatewayFacts.

Variable mime : string -> string.
Variable StringToNumber : string -> option Z.
Variable NODE_ENV : option string.
Variable contents : DB -> string -> Lookup.

Lemma sent_headers_lookup (q : Query) (i : Z) :
  sent_headers mime q i !! "Content-Type" = Some (HStr (mime (id q))) /\
  sent_headers mime q i !! "ETag" = Some (HNum i).
Proof.
  unfold sent_headers. split.
  - rewrite lookup_insert_ne by discriminate. apply lookup_insert_eq.
  - apply lookup_insert_eq.
Qed.

(** The later [serve] on a stored object: the probe, then [send]. *)
Lemma serve_stored (db : DB) (req : Request) (error : option Handler)
    (q : Query) (i : Z) (d : string) :
  parseURL (req_url req) = Some q ->
  contents (resolveSubLevel db (sublevels q)) (id q) = Stored i d ->
  serve mime StringToNumber NODE_ENV contents db req error fresh_world =
    let store := resolveSubLevel db (sublevels q) in
    if loose_eq StringToNumber (if_none_match req) i
    then mkWorld (mkResponse 304 (sent_headers mime q i) true "" true) []
           [mkRead store (id q) true]
    else mkWorld (mkResponse 200 (sent_headers mime q i) true d true) []
           [mkRead store (id q) true; mkRead store (id q) false].
Proof.
  intros Hq Hc. unfold serve.
  rewrite (parseURL_not_favicon _ _ Hq), Hq, Hc.
  cbn [probe_events foldl on_event listening found world].
  unfold send. rewrite Hc.
  destruct (loose_eq StringToNumber (if_none_match req) i); reflexivity.
Qed.

(** The default error handler: status 500, and the error's text unless
    [NODE_ENV] is [production]. *)
Lemma createError_fresh (e : JsError) (rs : list Read) :
  createError NODE_ENV e (mkWorld fresh_response [] rs) =
    if decide (NODE_ENV = Some "production")
    then mkWorld (mkResponse 500 ∅ true "oops." true) [] rs
    else mkWorld (mkResponse 500 ∅ true (toString e) true) [e] rs.
Proof.
  unfold createError, differs.
  destruct NODE_ENV as [v|]; [|reflexivity].
  destruct (String.eqb v "production") eqn:E.
  - apply String.eqb_eq in E. subst v. reflexivity.
  - apply String.eqb_neq in E.
    destruct (decide (Some v = Some "production")) as [H|H]; [|reflexivity].
    injection H as H. contradiction.
Qed.

Lemma serve_broken (db : DB) (req : Request) (q : Query) (e : JsError) :
  parseURL (req_url req) = Some q ->
  contents (resolveSubLevel db (sublevels q)) (id q) = Broken e ->
  serve mime StringToNumber NODE_ENV contents db req None fresh_world =
    createError NODE_ENV e
      (mkWorld fresh_response []
         [mkRead (resolveSubLevel db (sublevels q)) (id q) true]).
Proof.
  intros Hq Hc. unfold serve.
  rewrite (parseURL_not_favicon _ _ Hq), Hq, Hc. reflexivity.
Qed.

Lemma Legacy_serve_broken (db : DB) (req : Request) (q : Query) (e : JsError) :
  parseURL (req_url req) = Some q ->
  contents (resolveSubLevel db (sublevels q)) (id q) = Broken e ->
  LegacyGateway.serve mime NODE_ENV contents db req None fresh_world =
    createError NODE_ENV e
      (mkWorld fresh_response []
         [mkRead (resolveSubLevel db (sublevels q)) (id q) true]).
Proof.
  intros Hq Hc. unfold LegacyGateway.serve.
  rewrite Legacy_parseURL_eq, (parseURL_not_favicon _ _ Hq), Hq.
  cbv zeta. rewrite Hc. reflexivity.
Qed.

End GatewayFacts.

Lemma called_stays {A} (fn : option (Callback A)) (events : list WriteEvent) (a : A) :
  foldl (on_write_event fn) (mkCompletion true a) events = mkCompletion true a.
Proof.
  induction events as [|ev events IH]; [reflexivity|].
  cbn [foldl]. destruct ev, fn; exact IH.
Qed.

(** ** Properties of the codec, the gateway and the constructor *)

(** C1, as amended.  For a chain of names and an id that contain no
    separator, with a non-empty id and a non-empty outermost name, [url] on
    the handle resolved from the root gives the path [/files/n1/.../nk/id],
    and both revisions of [parseURL] give back the id and the chain. *)
Theorem decode_encode_roundtrip (names : list string) (i : string) :
  forallb no_slash names = true -> no_slash i = true ->
  i <> "" -> List.hd i names <> "" ->
  url (resolveSubLevel Root names) i = path_of names i /\
  parseURL (url (resolveSubLevel Root names) i) = Some (mkQuery i names) /\
  Legacy.parseURL (url (resolveSubLevel Root names) i) = Some (mkQuery i names).
Proof.
  intros Hn Hi _ Hhd.
  rewrite Legacy_parseURL_eq, url_resolved, parseURL_path_of by assumption.
  apply String.eqb_neq in Hhd. rewrite Hhd. auto.
Qed.

Lemma decode_encode_roundtrip_witness :
  url (resolveSubLevel Root ["a"; "b"]) "42" = path_of ["a"; "b"] "42" /\
  parseURL (url (resolveSubLevel Root ["a"; "b"]) "42")
    = Some (mkQuery "42" ["a"; "b"]) /\
  Legacy.parseURL (url (resolveSubLevel Root ["a"; "b"]) "42")
    = Some (mkQuery "42" ["a"; "b"]).
Proof.
  apply (decode_encode_roundtrip ["a"; "b"] "42");
    [reflexivity | reflexivity | discriminate | discriminate].
Defined.

(** C1 as stated fails.  Nothing is escaped: an id or a name with a
    separator in it is encoded as it is, and decoding cuts it in two; and
    the handle of the empty name is encoded to a path that is not
    decoded. *)
Lemma decode_encode_not_inverse :
  (url (resolveSubLevel Root []) "a/b" = "/files/a/b" /\
   parseURL (url (resolveSubLevel Root []) "a/b") = Some (mkQuery "b" ["a"]) /\
   parseURL (url (resolveSubLevel Root []) "a/b") <> Some (mkQuery "a/b" [])) /\
  (url (resolveSubLevel Root ["a/b"]) "x" = "/files/a/b/x" /\
   parseURL (url (resolveSubLevel Root ["a/b"]) "x") = Some (mkQuery "x" ["a"; "b"]) /\
   parseURL (url (resolveSubLevel Root ["a/b"]) "x") <> Some (mkQuery "x" ["a/b"])) /\
  (url (resolveSubLevel Root [""]) "x" = "/files//x" /\
   parseURL (url (resolveSubLevel Root [""]) "x") = None /\
   parseURL (url (resolveSubLevel Root [""]) "x") <> Some (mkQuery "x" [""])).
Proof.
  split; [|split];
    (split; [reflexivity | split; [reflexivity | discriminate]]).
Qed.

(** C2, as amended.  For every path [/files/n1/.../nk/id] whose id is not
    empty and whose segment right after the prefix is not empty, [parseURL]
    returns the last segment as the id and the segments between the prefix
    and the id, in order, as the chain; [url] of the handle resolved from
    that chain gives the path back. *)
Theorem parseURL_valid_path (names : list string) (i : string) :
  forallb no_slash names = true -> no_slash i = true ->
  i <> "" -> List.hd i names <> "" ->
  parseURL (path_of names i) = Some (mkQuery i names) /\
  Legacy.parseURL (path_of names i) = Some (mkQuery i names) /\
  url (resolveSubLevel Root names) i = path_of names i.
Proof.
  intros Hn Hi _ Hhd.
  rewrite Legacy_parseURL_eq, url_resolved, parseURL_path_of by assumption.
  apply String.eqb_neq in Hhd. rewrite Hhd. auto.
Qed.

Lemma parseURL_valid_path_witness :
  parseURL (path_of ["a"; "b"] "42") = Some (mkQuery "42" ["a"; "b"]) /\
  Legacy.parseURL (path_of ["a"; "b"] "42") = Some (mkQuery "42" ["a"; "b"]) /\
  url (resolveSubLevel Root ["a"; "b"]) "42" = path_of ["a"; "b"] "42".
Proof.
  apply (parseURL_valid_path ["a"; "b"] "42");
    [reflexivity | reflexivity | discriminate | discriminate].
Defined.

(** C2 as stated fails: [/files//x] has the prefix, the empty name and the
    id [x], it is valid in the spec's sense, and it is not decoded. *)
Lemma parseURL_empty_first_name :
  path_of [""] "x" = "/files//x" /\
  spec_valid (path_of [""] "x") = true /\
  parseURL (path_of [""] "x") = None /\
  parseURL (path_of [""] "x") <> Some (mkQuery "x" [""]).
Proof.
  split; [reflexivity | split; [reflexivity | split; [reflexivity | discriminate]]].
Qed.

(** C3, as amended.  [parseURL] returns a query exactly when the segment
    after the leading separator is [files] and the segment right after it
    exists and is not empty; on every other string it returns no match,
    and it returns on every string.  Both revisions agree. *)
Theorem parseURL_accepts_iff (u : string) :
  (is_Some (parseURL u) <-> accepted u) /\
  (parseURL u = None <-> ~ accepted u) /\
  Legacy.parseURL u = parseURL u.
Proof.
  split; [|split].
  - rewrite parseURL_decode_segs. apply decode_segs_accepts.
  - rewrite eq_None_not_Some, parseURL_decode_segs, decode_segs_accepts.
    reflexivity.
  - apply Legacy_parseURL_eq.
Qed.

(** C3 as stated fails: in [/files//x] the first segment is the prefix and
    two further segments exist, and [parseURL] returns no match. *)
Lemma parseURL_rejects_spec_valid :
  split slash "/files//x" = [""; "files"; ""; "x"] /\
  spec_valid "/files//x" = true /\
  parseURL "/files//x" = None /\
  Legacy.parseURL "/files//x" = None.
Proof. repeat split. Qed.

(** C4.  In the later revision [serve] installs the default error handler
    before it builds the 404 handler, so the 404 handler always takes the
    funnel: with no callback from the caller, a path that does not decode
    and an absent object are answered 500 through the default error
    handler, where the first revision writes the 404. *)
Theorem serve_not_found_is_500
    (mime : string -> string) (StringToNumber : string -> option Z)
    (NODE_ENV : option string) :
  let empty_store := fun (_ : DB) (_ : string) => Missing in
  let body500 := if decide (NODE_ENV = Some "production") then "oops."
                 else "Error: File not found." in
  res (serve mime StringToNumber NODE_ENV empty_store Root
         (GET "/nonsense" []) None fresh_world)
    = mkResponse 500 ∅ true body500 true /\
  res (serve mime StringToNumber NODE_ENV empty_store Root
         (GET "/files/a/b/42" []) None fresh_world)
    = mkResponse 500 ∅ true body500 true /\
  res (LegacyGateway.serve mime NODE_ENV empty_store Root
         (GET "/nonsense" []) None fresh_world)
    = mkResponse 404 ∅ true "File not found." true /\
  res (LegacyGateway.serve mime NODE_ENV empty_store Root
         (GET "/files/a/b/42" []) None fresh_world)
    = mkResponse 404 ∅ true "File not found." true.
Proof.
  cbv zeta. repeat split.
  - change (serve _ _ _ _ _ _ _ _) with
      (createError NODE_ENV (Error "File not found.") (mkWorld fresh_response [] [])).
    rewrite createError_fresh.
    destruct (decide (NODE_ENV = Some "production")); reflexivity.
  - change (serve _ _ _ _ _ _ _ _) with
      (createError NODE_ENV (Error "File not found.")
         (mkWorld fresh_response []
            [mkRead (resolveSubLevel Root ["a"; "b"]) "42" true])).
    rewrite createError_fresh.
    destruct (decide (NODE_ENV = Some "production")); reflexivity.
Qed.

(** C5.  In the later revision, a GET for a stored object sets
    [Content-Type] and [ETag] (the marker) and ends the response.  When
    [If-None-Match] equals the marker (under [==], which converts the
    header to a number), the status is 304, the body is empty and no
    payload read is opened; when the header is absent or does not equal
    the marker, the status is 200 and the payload is piped in full. *)
Theorem serve_conditional_get
    (mime : string -> string) (StringToNumber : string -> option Z)
    (NODE_ENV : option string) (contents : DB -> string -> Lookup)
    (db : DB) (req : Request) (error : option Handler)
    (q : Query) (i : Z) (d : string) :
  parseURL (req_url req) = Some q ->
  contents (resolveSubLevel db (sublevels q)) (id q) = Stored i d ->
  let w := serve mime StringToNumber NODE_ENV contents db req error fresh_world in
  let store := resolveSubLevel db (sublevels q) in
  resHeaders (res w) !! "Content-Type" = Some (HStr (mime (id q))) /\
  resHeaders (res w) !! "ETag" = Some (HNum i) /\
  finished (res w) = true /\
  (forall s, if_none_match req = Some s -> StringToNumber s = Some i ->
     statusCode (res w) = 304 /\ body (res w) = "" /\
     reads w = [mkRead store (id q) true]) /\
  (if_none_match req = None \/
   (exists s, if_none_match req = Some s /\ StringToNumber s <> Some i) ->
     statusCode (res w) = 200 /\ body (res w) = d /\
     reads w = [mkRead store (id q) true; mkRead store (id q) false]).
Proof.
  intros Hq Hc w store. subst w store.
  rewrite (serve_stored _ _ _ _ _ _ _ _ _ _ Hq Hc). cbv zeta.
  assert (Hh : forall c b, resHeaders (mkResponse c (sent_headers mime q i) true b true)
                 !! "Content-Type" = Some (HStr (mime (id q))) /\
               resHeaders (mkResponse c (sent_headers mime q i) true b true)
                 !! "ETag" = Some (HNum i)).
  { intros c b. cbn [resHeaders]. apply sent_headers_lookup. }
  assert (Heq : forall s, if_none_match req = Some s ->
                StringToNumber s = Some i ->
                loose_eq StringToNumber (if_none_match req) i = true).
  { intros s Hs Hn. unfold loose_eq. rewrite Hs, Hn. apply Z.eqb_refl. }
  assert (Hne : if_none_match req = None \/
                (exists s, if_none_match req = Some s /\ StringToNumber s <> Some i) ->
                loose_eq StringToNumber (if_none_match req) i = false).
  { unfold loose_eq. intros [Hn | (s & Hs & Hn)].
    - rewrite Hn. reflexivity.
    - rewrite Hs. destruct (StringToNumber s) as [n|]; [|reflexivity].
      apply Z.eqb_neq. intros ->. contradiction. }
  destruct (loose_eq StringToNumber (if_none_match req) i) eqn:E; cbn [res reads].
  - destruct (Hh 304 "") as [H1 H2].
    split; [exact H1 | split; [exact H2 | split; [reflexivity | split]]].
    + intros s _ _. repeat split.
    + intros H. specialize (Hne H). discriminate Hne.
  - destruct (Hh 200 d) as [H1 H2].
    split; [exact H1 | split; [exact H2 | split; [reflexivity | split]]].
    + intros s Hs Hn. specialize (Heq s Hs Hn). discriminate Heq.
    + intros _. repeat split.
Qed.

Lemma serve_conditional_get_witness :
  let fresh := serve octet_stream decimal_to_number None scenario_store Root
                 (GET "/files/42" []) None fresh_world in
  let cached := serve octet_stream decimal_to_number None scenario_store Root
                  (GET "/files/42" [("if-none-match", "7")]) None fresh_world in
  (statusCode (res fresh) = 200 /\ body (res fresh) = "blob" /\
   resHeaders (res fresh) !! "ETag" = Some (HNum 7)) /\
  (statusCode (res cached) = 304 /\ body (res cached) = "" /\
   resHeaders (res cached) !! "ETag" = Some (HNum 7)).
Proof.
  split.
  - destruct (serve_conditional_get octet_stream decimal_to_number None
                scenario_store Root (GET "/files/42" []) None
                (mkQuery "42" []) 7 "blob" eq_refl eq_refl)
      as (_ & H2 & _ & _ & H5).
    destruct (H5 (or_introl eq_refl)) as (Hs & Hb & _).
    repeat split; assumption.
  - destruct (serve_conditional_get octet_stream decimal_to_number None
                scenario_store Root (GET "/files/42" [("if-none-match", "7")]) None
                (mkQuery "42" []) 7 "blob" eq_refl eq_refl)
      as (_ & H2 & _ & H4 & _).
    destruct (H4 "7" eq_refl eq_refl) as (Hs & Hb & _).
    repeat split; assumption.
Defined.

(** C6.  With a callback supplied, whatever events the write stream
    emits after the first one, and in whatever order, the callback runs
    once: with the error when the first event is an error, with no
    argument when it is the close. *)
Theorem store_calls_back_once (ev : WriteEvent) (events : list WriteEvent) :
  (forall (A : Type) (fn : Callback A) (a : A),
     store (Some fn) (ev :: events) a = mkCompletion true (fn (completion_arg ev) a)) /\
  caller (store (Some record_call) (ev :: events) []) = [completion_arg ev] /\
  length (caller (store (Some record_call) (ev :: events) [])) = 1%nat.
Proof.
  assert (H : forall (A : Type) (fn : Callback A) (a : A),
    store (Some fn) (ev :: events) a = mkCompletion true (fn (completion_arg ev) a)).
  { intros A fn a. unfold store. cbn [foldl].
    destruct ev; cbn [on_write_event on_error on_close called caller completion_arg];
      apply called_stays. }
  split; [exact H|]. rewrite H. split; reflexivity.
Qed.

(** C7.  When the probe fails with a store error and the caller gave no
    error callback, both revisions answer 500 and end the response; the
    body is the fixed message when [NODE_ENV] is [production], whatever
    the error, and the error's text otherwise. *)
Theorem serve_probe_error
    (mime : string -> string) (StringToNumber : string -> option Z)
    (NODE_ENV : option string) (contents : DB -> string -> Lookup)
    (db : DB) (req : Request) (q : Query) (e : JsError) :
  parseURL (req_url req) = Some q ->
  contents (resolveSubLevel db (sublevels q)) (id q) = Broken e ->
  let r := res (serve mime StringToNumber NODE_ENV contents db req None fresh_world) in
  let r' := res (LegacyGateway.serve mime NODE_ENV contents db req None fresh_world) in
  r = mkResponse 500 ∅ true
        (if decide (NODE_ENV = Some "production") then "oops." else toString e)
        true /\
  r' = r.
Proof.
  intros Hq Hc r r'. subst r r'.
  rewrite (serve_broken _ _ _ _ _ _ _ _ Hq Hc).
  rewrite (Legacy_serve_broken _ _ _ _ _ _ _ Hq Hc).
  rewrite createError_fresh.
  destruct (decide (NODE_ENV = Some "production")); split; reflexivity.
Qed.

Lemma serve_probe_error_witness :
  res (serve octet_stream decimal_to_number (Some "production") broken_store
         Root (GET "/files/a/42" []) None fresh_world)
    = mkResponse 500 ∅ true "oops." true /\
  res (serve octet_stream decimal_to_number (Some "development") broken_store
         Root (GET "/files/a/42" []) None fresh_world)
    = mkResponse 500 ∅ true "OpenError: IO error: lock" true.
Proof.
  split.
  - exact (proj1 (serve_probe_error octet_stream decimal_to_number
             (Some "production") broken_store Root (GET "/files/a/42" [])
             (mkQuery "42" ["a"]) _ eq_refl eq_refl)).
  - exact (proj1 (serve_probe_error octet_stream decimal_to_number
             (Some "development") broken_store Root (GET "/files/a/42" [])
             (mkQuery "42" ["a"]) _ eq_refl eq_refl)).
Defined.

(** C8: the guard tests the segment after the prefix, not the last one.
    With a namespace and a trailing separator the path is accepted and the
    id is the empty string. *)
Theorem parseURL_trailing_slash_empty_id :
  parseURL "/files/a/" = Some (mkQuery "" ["a"]) /\
  Legacy.parseURL "/files/a/" = Some (mkQuery "" ["a"]) /\
  parseURL "/files/" = None.
Proof. repeat split. Qed.

(** C9.  For [s] and [q] without a separator, [/files/s?q] is decoded,
    with the id [s?q] (query suffix included) and the empty chain; [serve]
    probes the store under that id and infers the [Content-Type] from
    it. *)
Theorem parseURL_keeps_query_string (s q : string) :
  no_slash s = true -> no_slash q = true ->
  let path := "/files/" +:+ s +:+ "?" +:+ q in
  let key := s +:+ "?" +:+ q in
  parseURL path = Some (mkQuery key []) /\
  Legacy.parseURL path = Some (mkQuery key []) /\
  (forall mime StringToNumber NODE_ENV contents hs error i d,
     contents Root key = Stored i d ->
     let w := serve mime StringToNumber NODE_ENV contents Root
                (mkRequest path hs) error fresh_world in
     head (reads w) = Some (mkRead Root key true) /\
     resHeaders (res w) !! "Content-Type" = Some (HStr (mime key))).
Proof.
  intros Hs Hq path key.
  assert (Hi : no_slash key = true).
  { subst key. clear path. induction s as [|c s IH].
    - exact Hq.
    - change (String c s +:+ "?" +:+ q) with (String c (s +:+ "?" +:+ q)).
      cbn [no_slash] in *. apply andb_true_iff in Hs as [Hc Hs].
      rewrite Hc, (IH Hs). reflexivity. }
  assert (Hne : String.eqb key "" = false).
  { apply String.eqb_neq. subst key. destruct s; discriminate. }
  assert (Hp : parseURL path = Some (mkQuery key [])).
  { change path with (path_of [] key).
    rewrite (parseURL_path_of [] _ eq_refl Hi).
    cbn [List.hd]. rewrite Hne. reflexivity. }
  split; [exact Hp | split; [rewrite Legacy_parseURL_eq; exact Hp|]].
  intros mime StringToNumber NODE_ENV contents hs error i d Hc w. subst w.
  rewrite (serve_stored mime StringToNumber NODE_ENV contents Root
             (mkRequest path hs) error (mkQuery key []) i d Hp Hc).
  cbv zeta. cbn [sublevels id resolveSubLevel].
  destruct (loose_eq _ _ _); cbn [reads res resHeaders head]; split;
    try reflexivity; apply (sent_headers_lookup mime (mkQuery key []) i).
Qed.

Lemma parseURL_keeps_query_string_witness :
  parseURL ("/files/" +:+ "42" +:+ "?" +:+ "v=1") = Some (mkQuery "42?v=1" []) /\
  Legacy.parseURL ("/files/" +:+ "42" +:+ "?" +:+ "v=1") = Some (mkQuery "42?v=1" []).
Proof.
  destruct (parseURL_keeps_query_string "42" "v=1" eq_refl eq_refl)
    as (H1 & H2 & _).
  exact (conj H1 H2).
Defined.

(** C10.  Called as a plain function, with a [this] that is no [Server]
    instance, [Server] returns what [new Server(db)] returns: an object
    that inherits from [Server.prototype] and whose [db] is the argument.
    This holds for both revisions and with any fuel that allows the one
    nested call. *)
Theorem Server_without_new (binds_serve : bool) (fuel : nat) (this : Value) (db : DB) :
  instanceof_Server this = false ->
  let inst := mkObj ServerPrototype (Some db) binds_serve in
  Server binds_serve (S (S fuel)) this db = Some (Object inst, this) /\
  new_Server binds_serve (S fuel) db = Some inst /\
  instanceof_Server (Object inst) = true /\
  own_db inst = Some db.
Proof.
  intros Hthis inst.
  assert (Hnew : new_Server binds_serve (S fuel) db = Some inst).
  { unfold new_Server, construct. cbn [Server instanceof_Server proto negb].
    subst inst. rewrite orb_false_r. reflexivity. }
  split; [|split; [exact Hnew | split; reflexivity]].
  change (Server binds_serve (S (S fuel)) this db) with
    (if negb (instanceof_Server this)
     then match new_Server binds_serve (S fuel) db with
          | Some o => Some (Object o, this)
          | None => None
          end
     else match this with
          | Object o =>
              Some (Undefined, Object (mkObj (proto o) (Some db)
                                         (binds_serve || own_serve o)))
          | Undefined => None
          end).
  rewrite Hthis, Hnew. reflexivity.
Qed.

Lemma Server_without_new_witness :
  Server false 2 Undefined (Sub Root "photos")
    = Some (Object (mkObj ServerPrototype (Some (Sub Root "photos")) false), Undefined) /\
  new_Server false 1 (Sub Root "photos")
    = Some (mkObj ServerPrototype (Some (Sub Root "photos")) false).
Proof.
  destruct (Server_without_new false 0 Undefined (Sub Root "photos") eq_refl)
    as (H1 & H2 & _).
  exact (conj H1 H2).
Defined.

(** ** Lemmas for the further properties *)

Section Pieces.

Lemma join_cons (x y : string) (rest : list string) :
  join (x :: y :: rest) = x +:+ "/" +:+ join (y :: rest).
Proof. reflexivity. Qed.

Lemma join_split (s : string) : join (split slash s) = s.
Proof.
  induction s as [|c s IH]; [reflexivity|].
  cbn [split]. destruct (Ascii.eqb c slash) eqn:Ec.
  - apply Ascii.eqb_eq in Ec. subst c.
    destruct (split slash s) as [|x xs] eqn:E; [destruct (split_nonempty _ E)|].
    rewrite join_cons, IH. reflexivity.
  - destruct (split slash s) as [|x xs] eqn:E; [destruct (split_nonempty _ E)|].
    destruct xs as [|y ys].
    + cbn [join] in *. rewrite IH. reflexivity.
    + rewrite join_cons in *.
      change (String c x +:+ "/" +:+ join (y :: ys))
        with (String c (x +:+ "/" +:+ join (y :: ys))).
      rewrite IH. reflexivity.
Qed.

Lemma length_split (s : string) : length (split slash s) = S (count_slash s).
Proof.
  induction s as [|c s IH]; [reflexivity|].
  cbn [split count_slash]. destruct (Ascii.eqb c slash).
  - cbn [length]. rewrite IH. reflexivity.
  - destruct (split slash s) as [|x xs] eqn:E; [destruct (split_nonempty _ E)|].
    exact IH.
Qed.

Lemma split_pieces_no_slash (s : string) :
  forallb no_slash (split slash s) = true.
Proof.
  induction s as [|c s IH]; [reflexivity|].
  cbn [split]. destruct (Ascii.eqb c slash) eqn:Ec.
  - cbn [forallb no_slash]. exact IH.
  - destruct (split slash s) as [|x xs] eqn:E; [destruct (split_nonempty _ E)|].
    cbn [forallb no_slash] in *. rewrite Ec. exact IH.
Qed.

Lemma join_segs_removelast (x : string) (rest : list string) :
  join_segs (removelast (x :: rest)) (List.last rest x) = join (x :: rest).
Proof.
  revert x. induction rest as [|y rest IH]; intros x; [reflexivity|].
  change (removelast (x :: y :: rest)) with (x :: removelast (y :: rest)).
  change (List.last (y :: rest) x) with (List.last (y :: rest) x).
  rewrite last_cons_default, join_cons. cbn [join_segs]. rewrite IH. reflexivity.
Qed.

Lemma forallb_last_removelast (x : string) (rest : list string) :
  forallb no_slash (x :: rest) = true ->
  no_slash (List.last rest x) = true /\
  forallb no_slash (removelast (x :: rest)) = true.
Proof.
  revert x. induction rest as [|y rest IH]; intros x H.
  - cbn [forallb] in H. apply andb_true_iff in H as [Hx _]. split; [exact Hx | reflexivity].
  - change (forallb no_slash (x :: y :: rest))
      with (no_slash x && forallb no_slash (y :: rest)) in H.
    apply andb_true_iff in H as [Hx H]. destruct (IH y H) as [Hl Hr].
    rewrite last_cons_default.
    change (removelast (x :: y :: rest)) with (x :: removelast (y :: rest)).
    split; [exact Hl|]. cbn [forallb]. rewrite Hx. exact Hr.
Qed.

(** What an accepted string looks like, piece by piece. *)
Lemma parseURL_Some_inv (u : string) (q : Query) :
  parseURL u = Some q ->
  exists s0 x rest,
    split slash u = s0 :: "files" :: x :: rest /\ x <> "" /\
    q = mkQuery (List.last rest x) (removelast (x :: rest)).
Proof.
  rewrite parseURL_decode_segs.
  destruct (split slash u) as [|s0 [|f [|x rest]]]; try discriminate.
  cbn [decode_segs].
  destruct (String.eqb f "files") eqn:Ef; [|discriminate].
  destruct (String.eqb x "") eqn:Ex; [discriminate|].
  apply String.eqb_eq in Ef. apply String.eqb_neq in Ex. subst f.
  cbn [andb negb]. intros H. injection H as <-.
  exists s0, x, rest. auto.
Qed.

End Pieces.

(** ** Further properties of the codec *)

(** X1.  Encoding undoes decoding: when a path that starts with the
    separator is decoded, [url] of the handle resolved from the decoded
    chain, with the decoded id, is the path again, character by
    character (empty names and an empty id included). *)
Theorem url_undoes_parseURL (rest : string) (q : Query) :
  parseURL (String slash rest) = Some q ->
  url (resolveSubLevel Root (sublevels q)) (id q) = String slash rest.
Proof.
  intros H. apply parseURL_Some_inv in H as (s0 & x & tl & Hs & _ & ->).
  rewrite split_cons_slash in Hs. injection Hs as _ Hs.
  cbn [sublevels id]. rewrite url_resolved. unfold path_of.
  rewrite join_segs_removelast.
  rewrite <- (join_split rest), Hs. reflexivity.
Qed.

Lemma url_undoes_parseURL_witness :
  url (resolveSubLevel Root ["a"; ""]) "x.png" = "/files/a//x.png".
Proof.
  exact (url_undoes_parseURL "files/a//x.png" (mkQuery "x.png" ["a"; ""]) eq_refl).
Defined.

(** X2.  The id and the names [parseURL] returns never contain the
    separator. *)
Theorem parseURL_pieces_no_slash (u : string) (q : Query) :
  parseURL u = Some q ->
  no_slash (id q) = true /\ forallb no_slash (sublevels q) = true.
Proof.
  intros H. apply parseURL_Some_inv in H as (s0 & x & tl & Hs & _ & ->).
  pose proof (split_pieces_no_slash u) as Hp. rewrite Hs in Hp.
  change (forallb no_slash (s0 :: "files" :: x :: tl))
    with (no_slash s0 && (true && forallb no_slash (x :: tl))) in Hp.
  apply andb_true_iff in Hp as [_ Hp]. cbn [andb] in Hp.
  cbn [id sublevels]. apply forallb_last_removelast, Hp.
Qed.

Lemma parseURL_pieces_no_slash_witness :
  no_slash "42" = true /\ forallb no_slash ["a"; "b"] = true.
Proof.
  exact (parseURL_pieces_no_slash "/files/a/b/42" (mkQuery "42" ["a"; "b"]) eq_refl).
Defined.

(** X3.  What the guard does ensure: in every decoded path the segment
    right after the prefix is not empty, which is the outermost name, or
    the id when the chain is empty. *)
Theorem parseURL_first_piece_nonempty (u : string) (q : Query) :
  parseURL u = Some q ->
  List.hd (id q) (sublevels q) <> "" /\
  (sublevels q = [] -> id q <> "").
Proof.
  intros H. apply parseURL_Some_inv in H as (s0 & x & tl & _ & Hx & ->).
  cbn [id sublevels].
  assert (Hhd : List.hd (List.last tl x) (removelast (x :: tl)) = x).
  { destruct tl as [|y tl]; reflexivity. }
  split; [rewrite Hhd; exact Hx|].
  intros Hnil. rewrite Hnil in Hhd. cbn [List.hd] in Hhd. rewrite Hhd. exact Hx.
Qed.

Lemma parseURL_first_piece_nonempty_witness :
  List.hd "42" ["a"; ""] <> "" /\ (["a"; ""] = [] -> "42" <> "").
Proof.
  exact (parseURL_first_piece_nonempty "/files/a//42" (mkQuery "42" ["a"; ""]) eq_refl).
Defined.

(** X4.  Whatever stands before the first separator is ignored: the guard
    starts at [segs[1]]. *)
Theorem parseURL_ignores_leading_piece (s rest : string) :
  no_slash s = true ->
  parseURL (s +:+ "/" +:+ rest) = parseURL (String slash rest) /\
  Legacy.parseURL (s +:+ "/" +:+ rest) = Legacy.parseURL (String slash rest).
Proof.
  intros Hs. rewrite !Legacy_parseURL_eq.
  assert (H : parseURL (s +:+ "/" +:+ rest) = parseURL (String slash rest)).
  { rewrite !parseURL_decode_segs, split_cons_slash, (split_name_slash s rest Hs).
    destruct (split slash rest) as [|f [|x tl]]; reflexivity. }
  split; exact H.
Qed.

Lemma parseURL_ignores_leading_piece_witness :
  parseURL "static/files/42" = parseURL "/files/42" /\
  Legacy.parseURL "static/files/42" = Legacy.parseURL "/files/42".
Proof.
  exact (parseURL_ignores_leading_piece "static" "files/42" eq_refl).
Defined.

(** X5.  A string with fewer than two separators is never decoded: the
    empty string, a bare name, [/files]. *)
Theorem parseURL_needs_two_separators (u : string) :
  (count_slash u < 2)%nat ->
  parseURL u = None /\ Legacy.parseURL u = None.
Proof.
  intros H. rewrite Legacy_parseURL_eq.
  assert (Hn : parseURL u = None).
  { rewrite parseURL_decode_segs.
    pose proof (length_split u) as Hl.
    destruct (split slash u) as [|s0 [|f [|x tl]]]; try reflexivity.
    cbn [length] in Hl. injection Hl as Hl. rewrite <- Hl in H.
    lia. }
  split; exact Hn.
Qed.

Lemma parseURL_needs_two_separators_witness :
  parseURL "/files" = None /\ Legacy.parseURL "/files" = None.
Proof.
  apply (parseURL_needs_two_separators "/files"). cbn. lia.
Defined.

(** X6.  The depth of the decoded chain is the number of separators minus
    two; nothing bounds it. *)
Theorem parseURL_depth (u : string) (q : Query) :
  parseURL u = Some q ->
  (length (sublevels q) + 2 = count_slash u)%nat.
Proof.
  intros H. apply parseURL_Some_inv in H as (s0 & x & tl & Hs & _ & ->).
  pose proof (length_split u) as Hl. rewrite Hs in Hl.
  cbn [length] in Hl. injection Hl as Hl. rewrite <- Hl.
  cbn [sublevels].
  assert (Hr : length (removelast (x :: tl)) = length tl).
  { clear. revert x. induction tl as [|y tl IH]; intros x; [reflexivity|].
    change (removelast (x :: y :: tl)) with (x :: removelast (y :: tl)).
    cbn [length]. rewrite IH. reflexivity. }
  rewrite Hr, Nat.add_comm. reflexivity.
Qed.

Lemma parseURL_depth_witness :
  (length ["a"; "b"; "c"] + 2 = count_slash "/files/a/b/c/42")%nat.
Proof.
  exact (parseURL_depth "/files/a/b/c/42" (mkQuery "42" ["a"; "b"; "c"]) eq_refl).
Defined.

(** ** Further properties of the resolver and of [url] *)

Section Chains.

Lemma resolveSubLevel_app_aux (db : DB) (a b : list string) :
  resolveSubLevel db (a ++ b) = resolveSubLevel (resolveSubLevel db a) b.
Proof.
  revert db. induction a as [|n a IH]; intros db; [reflexivity|].
  cbn [app resolveSubLevel]. apply IH.
Qed.

Lemma chain_of_resolve (db : DB) (names : list string) :
  chain_of (resolveSubLevel db names) = chain_of db ++ names.
Proof.
  revert db. induction names as [|n names IH]; intros db.
  - cbn [resolveSubLevel]. rewrite app_nil_r. reflexivity.
  - cbn [resolveSubLevel]. rewrite IH. unfold sublevel. cbn [chain_of].
    rewrite <- app_assoc. reflexivity.
Qed.

Lemma resolve_chain_of (db : DB) : resolveSubLevel Root (chain_of db) = db.
Proof.
  induction db as [|p IH x]; [reflexivity|].
  cbn [chain_of]. rewrite resolveSubLevel_app_aux, IH. reflexivity.
Qed.

Lemma resolveSubLevel_inj_aux (db : DB) (a b : list string) :
  resolveSubLevel db a = resolveSubLevel db b -> a = b.
Proof.
  intros H. apply (f_equal chain_of) in H.
  rewrite !chain_of_resolve in H. exact (app_inv_head _ _ _ H).
Qed.

Lemma url_resolve_from (db : DB) (names : list string) (i : string) :
  url (resolveSubLevel db names) i = url db (join_segs names i).
Proof.
  unfold url. rewrite url_loop_resolve.
  assert (H : forall acc d, url_loop d acc = url_loop d "" +:+ acc).
  { intros acc d. revert acc. induction d as [|p IH x]; intros acc; [reflexivity|].
    rewrite !url_loop_Sub, (IH (x +:+ "/" +:+ acc)), (IH (x +:+ "/" +:+ "")).
    rewrite !append_assoc. reflexivity. }
  rewrite (H (join_segs names "")), append_assoc, join_segs_append.
  reflexivity.
Qed.

End Chains.

(** X7.  Resolving a chain in two steps is resolving it in one: the
    resolver only ever descends from where it stands. *)
Theorem resolveSubLevel_app (db : DB) (a b : list string) :
  resolveSubLevel db (a ++ b) = resolveSubLevel (resolveSubLevel db a) b.
Proof. apply resolveSubLevel_app_aux. Qed.

(** X8.  A handle and its chain of parent names determine each other:
    the names on the way to a resolved handle are those of the start
    followed by the resolved names, and resolving the names of a handle
    from the root gives the handle back. *)
Theorem resolveSubLevel_chain (db : DB) (names : list string) :
  chain_of (resolveSubLevel db names) = chain_of db ++ names /\
  resolveSubLevel Root (chain_of db) = db.
Proof. split; [apply chain_of_resolve | apply resolve_chain_of]. Qed.



(** X10.  [url] walks up to the root whatever handle the server holds:
    the link of any handle is the prefix, the names on the way from the
    root, and the id; and the link of a nested handle is the link of the
    outer one with the names put before the id. *)
Theorem url_of_handle (db : DB) (names : list string) (i : string) :
  url db i = path_of (chain_of db) i /\
  url (resolveSubLevel db names) i = url db (join_segs names i).
Proof.
  split; [|apply url_resolve_from].
  rewrite <- (resolve_chain_of db) at 1. apply url_resolved.
Qed.

(** X11.  Different objects get different links: for names and ids
    without a separator, [url] of two handles resolved from the root
    agrees only when the chains and the ids agree. *)
Theorem url_injective (a b : list string) (i j : string) :
  forallb no_slash a = true -> no_slash i = true ->
  forallb no_slash b = true -> no_slash j = true ->
  url (resolveSubLevel Root a) i = url (resolveSubLevel Root b) j ->
  a = b /\ i = j.
Proof.
  intros Ha Hi Hb Hj H. rewrite !url_resolved in H.
  apply (f_equal (split slash)) in H.
  rewrite !split_path_of in H by assumption.
  injection H as H. apply app_inj_tail in H. exact H.
Qed.

Lemma url_injective_witness : ["a"] = ["a"] /\ "42" = "42".
Proof.
  apply (url_injective ["a"] ["a"] "42" "42"); reflexivity.
Defined.

(** ** Further properties of the gateway *)

Section ServeFacts.

Variable mime : string -> string.
Variable StringToNumber : string -> option Z.
Variable NODE_ENV : option string.
Variable contents : DB -> string -> Lookup.

Lemma serve_decoded (db : DB) (req : Request) (error : option Handler)
    (q : Query) (w : World) :
  parseURL (req_url req) = Some q ->
  serve mime StringToNumber NODE_ENV contents db req error w =
    let store := resolveSubLevel db (sublevels q) in
    let w' := open_read (mkRead store (id q) true) w in
    match contents store (id q) with
    | Missing => effective_error NODE_ENV error (Error "File not found.") w'
    | Stored i _ => send mime StringToNumber contents req store q i w'
    | Broken e => effective_error NODE_ENV error e w'
    end.
Proof.
  intros Hq. unfold serve.
  rewrite (parseURL_not_favicon _ _ Hq), Hq. cbv zeta.
  destruct (contents (resolveSubLevel db (sublevels q)) (id q));
    destruct error; reflexivity.
Qed.

Lemma serve_undecoded (db : DB) (req : Request) (error : option Handler)
    (w : World) :
  parseURL (req_url req) = None -> req_url req <> "/favicon.ico" ->
  serve mime StringToNumber NODE_ENV contents db req error w =
    effective_error NODE_ENV error (Error "File not found.") w.
Proof.
  intros Hq Hf. unfold serve. apply String.eqb_neq in Hf.
  rewrite Hf, Hq. destruct error; reflexivity.
Qed.

Lemma serve_favicon (db : DB) (req : Request) (error : option Handler)
    (w : World) :
  req_url req = "/favicon.ico" ->
  serve mime StringToNumber NODE_ENV contents db req error w = on_res (end_ "") w /\
  LegacyGateway.serve mime NODE_ENV contents db req error w = on_res (end_ "") w.
Proof.
  intros Hf. unfold serve, LegacyGateway.serve. rewrite Hf. split; reflexivity.
Qed.

Lemma Legacy_serve_decoded (db : DB) (req : Request) (error : option Handler)
    (q : Query) (w : World) :
  parseURL (req_url req) = Some q ->
  LegacyGateway.serve mime NODE_ENV contents db req error w =
    let store := resolveSubLevel db (sublevels q) in
    let w' := open_read (mkRead store (id q) true) w in
    match contents store (id q) with
    | Missing => LegacyGateway.createNotFound w'
    | Stored _ d =>
        on_res (end_ d)
          (open_read (mkRead store (id q) false)
             (on_res (writeHead 200 {["Content-Type" := HStr (mime (id q))]}) w'))
    | Broken e => effective_error NODE_ENV error e w'
    end.
Proof.
  intros Hq. unfold LegacyGateway.serve.
  rewrite Legacy_parseURL_eq, (parseURL_not_favicon _ _ Hq), Hq. cbv zeta.
  destruct (contents (resolveSubLevel db (sublevels q)) (id q));
    destruct error; reflexivity.
Qed.

Lemma Legacy_serve_undecoded (db : DB) (req : Request) (error : option Handler)
    (w : World) :
  parseURL (req_url req) = None -> req_url req <> "/favicon.ico" ->
  LegacyGateway.serve mime NODE_ENV contents db req error w =
    LegacyGateway.createNotFound w.
Proof.
  intros Hq Hf. unfold LegacyGateway.serve. apply String.eqb_neq in Hf.
  rewrite Legacy_parseURL_eq, Hf, Hq. reflexivity.
Qed.

(** [createError] on any world. *)
Lemma createError_any (e : JsError) (w : World) :
  createError NODE_ENV e w =
    if decide (NODE_ENV = Some "production")
    then mkWorld (mkResponse 500 (resHeaders (res w)) true
                    (body (res w) +:+ "oops.") true)
           (console w) (reads w)
    else mkWorld (mkResponse 500 (resHeaders (res w)) true
                    (body (res w) +:+ toString e) true)
           (console w ++ [e]) (reads w).
Proof.
  unfold createError, differs, on_res, console_error, writeHead, end_.
  cbn [res console reads statusCode resHeaders headersSent body finished].
  rewrite (left_id_L ∅ (∪)).
  destruct NODE_ENV as [v|].
  - destruct (String.eqb v "production") eqn:E.
    + apply String.eqb_eq in E. subst v. reflexivity.
    + apply String.eqb_neq in E.
      destruct (decide (Some v = Some "production")) as [H|H]; [|reflexivity].
      injection H as H. contradiction.
  - reflexivity.
Qed.

End ServeFacts.

(** X12.  In the later revision, with a callback from the caller, [serve]
    writes nothing itself when the object cannot be served: a path that
    is not decoded and an absent object are handed to the callback as
    [Error('File not found.')], a store error is handed over as it is,
    and the world is otherwise as it was (plus the probe read). *)
Theorem serve_reports_to_callback
    (mime : string -> string) (StringToNumber : string -> option Z)
    (NODE_ENV : option string) (contents : DB -> string -> Lookup)
    (db : DB) (req : Request) (cb : Handler) (w : World) :
  let run := serve mime StringToNumber NODE_ENV contents db req (Some cb) w in
  (parseURL (req_url req) = None -> req_url req <> "/favicon.ico" ->
   run = cb (Error "File not found.") w) /\
  (forall q, parseURL (req_url req) = Some q ->
     let store := resolveSubLevel db (sublevels q) in
     let w' := open_read (mkRead store (id q) true) w in
     (contents store (id q) = Missing -> run = cb (Error "File not found.") w') /\
     (forall e, contents store (id q) = Broken e -> run = cb e w')).
Proof.
  intros run. subst run. split.
  - intros Hq Hf. rewrite serve_undecoded by assumption. reflexivity.
  - intros q Hq store w'. subst store w'.
    rewrite (serve_decoded _ _ _ _ _ _ _ _ _ Hq). cbv zeta.
    split; [intros -> | intros e ->]; reflexivity.
Qed.

Lemma serve_reports_to_callback_witness :
  serve octet_stream decimal_to_number None scenario_store Root
    (GET "/nonsense" []) (Some record_error) fresh_world
    = mkWorld fresh_response [Error "File not found."] [] /\
  serve octet_stream decimal_to_number None scenario_store Root
    (GET "/files/a/42" []) (Some record_error) fresh_world
    = mkWorld fresh_response [Error "File not found."]
        [mkRead (Sub Root "a") "42" true] /\
  serve octet_stream decimal_to_number None broken_store Root
    (GET "/files/a/42" []) (Some record_error) fresh_world
    = mkWorld fresh_response [mkError "OpenError" "IO error: lock"]
        [mkRead (Sub Root "a") "42" true].
Proof.
  split; [|split].
  - exact (proj1 (serve_reports_to_callback octet_stream decimal_to_number None
             scenario_store Root (GET "/nonsense" []) record_error fresh_world)
             eq_refl ltac:(discriminate)).
  - exact (proj1 (proj2 (serve_reports_to_callback octet_stream decimal_to_number
             None scenario_store Root (GET "/files/a/42" []) record_error
             fresh_world) (mkQuery "42" ["a"]) eq_refl) eq_refl).
  - exact (proj2 (proj2 (serve_reports_to_callback octet_stream decimal_to_number
             None broken_store Root (GET "/files/a/42" []) record_error
             fresh_world) (mkQuery "42" ["a"]) eq_refl) _ eq_refl).
Defined.

(** X13.  In the first revision the 404 never goes through the error
    callback: for a path that is not decoded and for an absent object,
    [serve] writes 404 and [File not found.] itself, whatever callback the
    caller gave. *)
Theorem Legacy_serve_not_found
    (mime : string -> string) (NODE_ENV : option string)
    (contents : DB -> string -> Lookup)
    (db : DB) (req : Request) (error : option Handler) :
  (parseURL (req_url req) = None /\ req_url req <> "/favicon.ico") \/
  (exists q, parseURL (req_url req) = Some q /\
     contents (resolveSubLevel db (sublevels q)) (id q) = Missing) ->
  let w := LegacyGateway.serve mime NODE_ENV contents db req error fresh_world in
  res w = mkResponse 404 ∅ true "File not found." true /\ console w = [].
Proof.
  intros [[Hq Hf] | (q & Hq & Hc)] w; subst w.
  - rewrite Legacy_serve_undecoded by assumption. split; reflexivity.
  - rewrite (Legacy_serve_decoded _ _ _ _ _ _ _ _ Hq). cbv zeta. rewrite Hc.
    split; reflexivity.
Qed.

Lemma Legacy_serve_not_found_witness :
  res (LegacyGateway.serve octet_stream None scenario_store Root
         (GET "/files/a/b/42" []) (Some record_error) fresh_world)
    = mkResponse 404 ∅ true "File not found." true /\
  console (LegacyGateway.serve octet_stream None scenario_store Root
             (GET "/files/a/b/42" []) (Some record_error) fresh_world) = [].
Proof.
  apply (Legacy_serve_not_found octet_stream None scenario_store Root
           (GET "/files/a/b/42" []) (Some record_error)).
  right. exists (mkQuery "42" ["a"; "b"]). split; reflexivity.
Defined.

(** X14.  In the first revision a stored object is always answered in
    full: status 200, the [Content-Type] inferred from the id as the only
    header, the whole payload, one existence check and one payload read;
    the request headers and the callback play no part, so no 304 is ever
    sent. *)
Theorem Legacy_serve_stored
    (mime : string -> string) (NODE_ENV : option string)
    (contents : DB -> string -> Lookup)
    (db : DB) (req : Request) (error : option Handler)
    (q : Query) (i : Z) (d : string) :
  parseURL (req_url req) = Some q ->
  contents (resolveSubLevel db (sublevels q)) (id q) = Stored i d ->
  LegacyGateway.serve mime NODE_ENV contents db req error fresh_world =
    mkWorld
      (mkResponse 200 {["Content-Type" := HStr (mime (id q))]} true d true)
      []
      [mkRead (resolveSubLevel db (sublevels q)) (id q) true;
       mkRead (resolveSubLevel db (sublevels q)) (id q) false].
Proof.
  intros Hq Hc.
  rewrite (Legacy_serve_decoded _ _ _ _ _ _ _ _ Hq). cbv zeta. rewrite Hc.
  unfold on_res, open_read, writeHead, end_, fresh_world, fresh_response.
  cbn [res console reads statusCode resHeaders headersSent body finished app].
  rewrite (right_id_L ∅ (∪)). reflexivity.
Qed.

Lemma Legacy_serve_stored_witness :
  LegacyGateway.serve octet_stream None scenario_store Root
    (GET "/files/42" [("if-none-match", "7")]) None fresh_world =
    mkWorld
      (mkResponse 200 {["Content-Type" := HStr "application/octet-stream"]}
         true "blob" true)
      [] [mkRead Root "42" true; mkRead Root "42" false].
Proof.
  exact (Legacy_serve_stored octet_stream None scenario_store Root
           (GET "/files/42" [("if-none-match", "7")]) None
           (mkQuery "42" []) 7 "blob" eq_refl eq_refl).
Defined.

Section ServeOutcome.

Variable mime : string -> string.
Variable StringToNumber : string -> option Z.
Variable NODE_ENV : option string.
Variable contents : DB -> string -> Lookup.

Lemma createError_res (e : JsError) (rs : list Read) :
  res (createError NODE_ENV e (mkWorld fresh_response [] rs)) = response_500 NODE_ENV e.
Proof.
  rewrite createError_fresh. unfold response_500.
  destruct (decide (NODE_ENV = Some "production")); reflexivity.
Qed.

(** The response of the later [serve] without a callback, case by case. *)
Lemma serve_res (db : DB) (req : Request) :
  res (serve mime StringToNumber NODE_ENV contents db req None fresh_world) =
    if String.eqb (req_url req) "/favicon.ico" then end_ "" fresh_response
    else
      match parseURL (req_url req) with
      | None => response_500 NODE_ENV (Error "File not found.")
      | Some q =>
          match contents (resolveSubLevel db (sublevels q)) (id q) with
          | Missing => response_500 NODE_ENV (Error "File not found.")
          | Broken e => response_500 NODE_ENV e
          | Stored i d =>
              if loose_eq StringToNumber (if_none_match req) i
              then mkResponse 304 (sent_headers mime q i) true "" true
              else mkResponse 200 (sent_headers mime q i) true d true
          end
      end.
Proof.
  destruct (String.eqb (req_url req) "/favicon.ico") eqn:Ef.
  - apply String.eqb_eq in Ef.
    rewrite (proj1 (serve_favicon mime StringToNumber NODE_ENV contents db req None
                      fresh_world Ef)).
    reflexivity.
  - apply String.eqb_neq in Ef.
    destruct (parseURL (req_url req)) as [q|] eqn:Hq.
    + destruct (contents (resolveSubLevel db (sublevels q)) (id q)) as [|i d|e] eqn:Hc.
      * rewrite (serve_decoded _ _ _ _ _ _ _ _ _ Hq). cbv zeta. rewrite Hc.
        apply createError_res.
      * rewrite (serve_stored _ _ _ _ _ _ _ _ _ _ Hq Hc). cbv zeta.
        destruct (loose_eq _ _ _); reflexivity.
      * rewrite (serve_decoded _ _ _ _ _ _ _ _ _ Hq). cbv zeta. rewrite Hc.
        apply createError_res.
    + rewrite serve_undecoded by assumption. apply createError_res.
Qed.

(** The response of the first [serve] without a callback, case by case. *)
Lemma Legacy_serve_res (db : DB) (req : Request) :
  res (LegacyGateway.serve mime NODE_ENV contents db req None fresh_world) =
    if String.eqb (req_url req) "/favicon.ico" then end_ "" fresh_response
    else
      match parseURL (req_url req) with
      | None => mkResponse 404 ∅ true "File not found." true
      | Some q =>
          match contents (resolveSubLevel db (sublevels q)) (id q) with
          | Missing => mkResponse 404 ∅ true "File not found." true
          | Broken e => response_500 NODE_ENV e
          | Stored i d =>
              mkResponse 200 {["Content-Type" := HStr (mime (id q))]} true d true
          end
      end.
Proof.
  destruct (String.eqb (req_url req) "/favicon.ico") eqn:Ef.
  - unfold LegacyGateway.serve. rewrite Ef. reflexivity.
  - apply String.eqb_neq in Ef.
    destruct (parseURL (req_url req)) as [q|] eqn:Hq.
    + rewrite (Legacy_serve_decoded _ _ _ _ _ _ _ _ Hq). cbv zeta.
      destruct (contents (resolveSubLevel db (sublevels q)) (id q)) as [|i d|e] eqn:Hc.
      * reflexivity.
      * unfold on_res, open_read, writeHead, end_, fresh_world, fresh_response.
        cbn [res console reads statusCode resHeaders headersSent body finished].
        rewrite (right_id_L ∅ (∪)). reflexivity.
      * apply createError_res.
    + rewrite Legacy_serve_undecoded by assumption. reflexivity.
Qed.

End ServeOutcome.

(** X15.  Without a callback, the later [serve] answers every request,
    whatever the path and the store hold: the response is ended, with
    status 200, 304 or 500, and never with 404. *)
Theorem serve_always_answers
    (mime : string -> string) (StringToNumber : string -> option Z)
    (NODE_ENV : option string) (contents : DB -> string -> Lookup)
    (db : DB) (req : Request) :
  let r := res (serve mime StringToNumber NODE_ENV contents db req None fresh_world) in
  finished r = true /\ headersSent r = true /\
  (statusCode r = 200 \/ statusCode r = 304 \/ statusCode r = 500) /\
  statusCode r <> 404.
Proof.
  intros r. subst r. rewrite serve_res.
  destruct (String.eqb (req_url req) "/favicon.ico").
  { cbn. repeat split; auto; discriminate. }
  destruct (parseURL (req_url req)) as [q|].
  2: { cbn. repeat split; auto; discriminate. }
  destruct (contents _ _) as [|i d|e].
  - cbn. repeat split; auto; discriminate.
  - destruct (loose_eq _ _ _); cbn; repeat split; auto; discriminate.
  - cbn. repeat split; auto; discriminate.
Qed.

(** X16.  Without a callback, the first [serve] answers every request
    too: the response is ended, with status 200, 404 or 500, and never
    with 304. *)
Theorem Legacy_serve_always_answers
    (mime : string -> string) (NODE_ENV : option string)
    (contents : DB -> string -> Lookup) (db : DB) (req : Request) :
  let r := res (LegacyGateway.serve mime NODE_ENV contents db req None fresh_world) in
  finished r = true /\ headersSent r = true /\
  (statusCode r = 200 \/ statusCode r = 404 \/ statusCode r = 500) /\
  statusCode r <> 304.
Proof.
  intros r. subst r. rewrite Legacy_serve_res.
  destruct (String.eqb (req_url req) "/favicon.ico").
  { cbn. repeat split; auto; discriminate. }
  destruct (parseURL (req_url req)) as [q|].
  2: { cbn. repeat split; auto; discriminate. }
  destruct (contents _ _) as [|i d|e].
  - cbn. repeat split; auto; discriminate.
  - cbn. repeat split; auto; discriminate.
  - cbn. repeat split; auto; discriminate.
Qed.

(** X17.  A 304 is only ever sent for a stored object whose marker the
    [If-None-Match] header equals: without a callback, when the later
    [serve] answers 304, the path was decoded, the object is in the
    store, and the header converts to its marker. *)
Theorem serve_304_only_when_matching
    (mime : string -> string) (StringToNumber : string -> option Z)
    (NODE_ENV : option string) (contents : DB -> string -> Lookup)
    (db : DB) (req : Request) :
  statusCode (res (serve mime StringToNumber NODE_ENV contents db req None
                     fresh_world)) = 304 ->
  exists q i d s,
    parseURL (req_url req) = Some q /\
    contents (resolveSubLevel db (sublevels q)) (id q) = Stored i d /\
    if_none_match req = Some s /\ StringToNumber s = Some i.
Proof.
  rewrite serve_res.
  destruct (String.eqb (req_url req) "/favicon.ico"); [discriminate|].
  destruct (parseURL (req_url req)) as [q|]; [|discriminate].
  destruct (contents _ _) as [|i d|e] eqn:Hc; [discriminate| |discriminate].
  destruct (loose_eq StringToNumber (if_none_match req) i) eqn:E; [|discriminate].
  intros _. unfold loose_eq in E.
  destruct (if_none_match req) as [s|]; [|discriminate].
  destruct (StringToNumber s) as [n|] eqn:Hn; [|discriminate].
  apply Z.eqb_eq in E. subst n.
  exists q, i, d, s. auto.
Qed.

Lemma serve_304_only_when_matching_witness :
  exists q i d s,
    parseURL "/files/42" = Some q /\
    scenario_store (resolveSubLevel Root (sublevels q)) (id q) = Stored i d /\
    if_none_match (GET "/files/42" [("if-none-match", "7")]) = Some s /\
    decimal_to_number s = Some i.
Proof.
  apply (serve_304_only_when_matching octet_stream decimal_to_number None
           scenario_store Root (GET "/files/42" [("if-none-match", "7")])).
  vm_compute. reflexivity.
Defined.

Section ServeReads.

Variable mime : string -> string.
Variable StringToNumber : string -> option Z.
Variable NODE_ENV : option string.
Variable contents : DB -> string -> Lookup.

Lemma createError_reads (e : JsError) (rs : list Read) :
  reads (createError NODE_ENV e (mkWorld fresh_response [] rs)) = rs.
Proof.
  rewrite createError_fresh.
  destruct (decide (NODE_ENV = Some "production")); reflexivity.
Qed.

(** The reads the later [serve] opens without a callback, case by case. *)
Lemma serve_reads (db : DB) (req : Request) :
  reads (serve mime StringToNumber NODE_ENV contents db req None fresh_world) =
    match parseURL (req_url req) with
    | None => []
    | Some q =>
        let store := resolveSubLevel db (sublevels q) in
        match contents store (id q) with
        | Stored i _ =>
            if loose_eq StringToNumber (if_none_match req) i
            then [mkRead store (id q) true]
            else [mkRead store (id q) true; mkRead store (id q) false]
        | _ => [mkRead store (id q) true]
        end
    end.
Proof.
  destruct (parseURL (req_url req)) as [q|] eqn:Hq.
  - cbv zeta.
    destruct (contents (resolveSubLevel db (sublevels q)) (id q)) as [|i d|e] eqn:Hc.
    + rewrite (serve_decoded _ _ _ _ _ _ _ _ _ Hq). cbv zeta. rewrite Hc.
      apply createError_reads.
    + rewrite (serve_stored _ _ _ _ _ _ _ _ _ _ Hq Hc). cbv zeta.
      destruct (loose_eq _ _ _); reflexivity.
    + rewrite (serve_decoded _ _ _ _ _ _ _ _ _ Hq). cbv zeta. rewrite Hc.
      apply createError_reads.
  - destruct (String.eqb (req_url req) "/favicon.ico") eqn:Ef.
    + apply String.eqb_eq in Ef.
      rewrite (proj1 (serve_favicon mime StringToNumber NODE_ENV contents db req
                        None fresh_world Ef)).
      reflexivity.
    + apply String.eqb_neq in Ef.
      rewrite serve_undecoded by assumption. apply createError_reads.
Qed.

(** After the first data event the [once] listener is gone and [found] is
    set: only error events still have an effect. *)
Lemma on_event_after_data (req : Request) (store : DB) (q : Query)
    (error : Handler) (notFound : World -> World)
    (events : list StreamEvent) (w : World) :
  world (foldl (on_event mime StringToNumber contents req store q error notFound)
           (mkProbe true false w) events)
  = foldl (fun w e => error e w) w (errors_of events).
Proof.
  revert w. induction events as [|ev events IH]; intros w; [reflexivity|].
  cbn [foldl]. destruct ev as [i| |e];
    cbn [on_event listening found world errors_of foldl]; apply IH.
Qed.

End ServeReads.

(** X18.  Without a callback, the later [serve] reads the store only
    under the decoded id, in the handle resolved from its own handle by
    the decoded chain; a request that is not decoded reads nothing, and
    the payload is only read for an object that is stored. *)
Theorem serve_reads_only_decoded_key
    (mime : string -> string) (StringToNumber : string -> option Z)
    (NODE_ENV : option string) (contents : DB -> string -> Lookup)
    (db : DB) (req : Request) (r : Read) :
  In r (reads (serve mime StringToNumber NODE_ENV contents db req None fresh_world)) ->
  exists q,
    parseURL (req_url req) = Some q /\
    read_db r = resolveSubLevel db (sublevels q) /\
    read_id r = id q /\
    (read_probe r = false ->
     exists i d, contents (read_db r) (read_id r) = Stored i d).
Proof.
  rewrite serve_reads.
  destruct (parseURL (req_url req)) as [q|]; [|intros []].
  cbv zeta. intros Hin. exists q. split; [reflexivity|].
  destruct (contents (resolveSubLevel db (sublevels q)) (id q)) as [|i d|e] eqn:Hc.
  - destruct Hin as [<-|[]]. repeat split. discriminate.
  - destruct (loose_eq _ _ _).
    + destruct Hin as [<-|[]]. repeat split. discriminate.
    + destruct Hin as [<-|[<-|[]]]; repeat split; try discriminate.
      intros _. exists i, d. exact Hc.
  - destruct Hin as [<-|[]]. repeat split. discriminate.
Qed.

Lemma serve_reads_only_decoded_key_witness :
  exists q,
    parseURL "/files/42" = Some q /\
    Root = resolveSubLevel Root (sublevels q) /\
    "42" = id q /\
    (false = false -> exists i d, scenario_store Root "42" = Stored i d).
Proof.
  apply (serve_reads_only_decoded_key octet_stream decimal_to_number None
           scenario_store Root (GET "/files/42" []) (mkRead Root "42" false)).
  vm_compute. right. left. reflexivity.
Defined.

(** X19.  A link made by [url] is served by the server of the root
    handle: for a handle resolved from the root by names without a
    separator, and an id stored in it, a GET of [url] with no headers is
    answered 200 with the payload, in both revisions. *)
Theorem url_is_served_by_root
    (mime : string -> string) (StringToNumber : string -> option Z)
    (NODE_ENV : option string) (contents : DB -> string -> Lookup)
    (names : list string) (i : string) (m : Z) (d : string) :
  forallb no_slash names = true -> no_slash i = true ->
  i <> "" -> List.hd i names <> "" ->
  contents (resolveSubLevel Root names) i = Stored m d ->
  let req := mkRequest (url (resolveSubLevel Root names) i) None in
  res (serve mime StringToNumber NODE_ENV contents Root req None fresh_world)
    = mkResponse 200 (sent_headers mime (mkQuery i names) m) true d true /\
  res (LegacyGateway.serve mime NODE_ENV contents Root req None fresh_world)
    = mkResponse 200 {["Content-Type" := HStr (mime i)]} true d true.
Proof.
  intros Hn Hi _ Hhd Hc req.
  assert (Hq : parseURL (req_url req) = Some (mkQuery i names)).
  { subst req. cbn [req_url]. rewrite url_resolved, parseURL_path_of by assumption.
    apply String.eqb_neq in Hhd. rewrite Hhd. reflexivity. }
  split.
  - rewrite (serve_stored _ _ _ _ _ _ _ _ _ _ Hq Hc). reflexivity.
  - rewrite Legacy_serve_res, (parseURL_not_favicon _ _ Hq), Hq.
    cbn [sublevels id]. rewrite Hc. reflexivity.
Qed.

Lemma url_is_served_by_root_witness :
  res (serve octet_stream decimal_to_number None photo_store Root
         (mkRequest "/files/photos/cat.png" None) None fresh_world)
    = mkResponse 200 (sent_headers octet_stream (mkQuery "cat.png" ["photos"]) 3)
        true "PNG" true /\
  res (LegacyGateway.serve octet_stream None photo_store Root
         (mkRequest "/files/photos/cat.png" None) None fresh_world)
    = mkResponse 200 {["Content-Type" := HStr "application/octet-stream"]}
        true "PNG" true.
Proof.
  apply (url_is_served_by_root octet_stream decimal_to_number None photo_store
           ["photos"] "cat.png" 3 "PNG");
    [reflexivity | reflexivity | discriminate | discriminate | reflexivity].
Defined.

(** X20.  [url] counts from the root but [serve] resolves from the
    server's own handle: a server that holds a nested handle probes, for
    its own link, the handle nested once more under the same names, which
    is another handle. *)
Theorem serve_resolves_own_url_deeper
    (mime : string -> string) (StringToNumber : string -> option Z)
    (NODE_ENV : option string) (contents : DB -> string -> Lookup)
    (names : list string) (i : string) (hs : option (gmap string string)) :
  forallb no_slash names = true -> no_slash i = true ->
  names <> [] -> List.hd i names <> "" ->
  let db := resolveSubLevel Root names in
  head (reads (serve mime StringToNumber NODE_ENV contents db
                 (mkRequest (url db i) hs) None fresh_world))
    = Some (mkRead (resolveSubLevel Root (names ++ names)) i true) /\
  resolveSubLevel Root (names ++ names) <> db.
Proof.
  intros Hn Hi Hne Hhd db.
  assert (Hq : parseURL (url db i) = Some (mkQuery i names)).
  { subst db. rewrite url_resolved, parseURL_path_of by assumption.
    apply String.eqb_neq in Hhd. rewrite Hhd. reflexivity. }
  split.
  - rewrite serve_reads. cbn [req_url]. rewrite Hq. cbv zeta. cbn [sublevels id].
    subst db. rewrite <- resolveSubLevel_app_aux.
    destruct (contents _ _); [reflexivity| |reflexivity].
    destruct (loose_eq _ _ _); reflexivity.
  - subst db. intros H. apply resolveSubLevel_inj_aux in H.
    rewrite <- (app_nil_r names) in H at 3. apply app_inv_head in H.
    contradiction.
Qed.

Lemma serve_resolves_own_url_deeper_witness :
  head (reads (serve octet_stream decimal_to_number None photo_store
                 (Sub Root "photos")
                 (mkRequest (url (Sub Root "photos") "cat.png") None) None
                 fresh_world))
    = Some (mkRead (Sub (Sub Root "photos") "photos") "cat.png" true) /\
  Sub (Sub Root "photos") "photos" <> Sub Root "photos".
Proof.
  apply (serve_resolves_own_url_deeper octet_stream decimal_to_number None
           photo_store ["photos"] "cat.png" None);
    [reflexivity | reflexivity | discriminate | discriminate].
Defined.

(** X21.  The listeners of the probe handle the marker once: after the
    first data event, further data events and the end of the stream
    change nothing ([send] is not run again and the 404 handler is not
    called); only error events still reach the error callback. *)
Theorem probe_data_handled_once
    (mime : string -> string) (StringToNumber : string -> option Z)
    (contents : DB -> string -> Lookup)
    (req : Request) (store : DB) (q : Query)
    (error : Handler) (notFound : World -> World)
    (i : Z) (events : list StreamEvent) (w : World) :
  world (foldl (on_event mime StringToNumber contents req store q error notFound)
           (mkProbe false true w) (EvData i :: events))
  = foldl (fun w e => error e w)
      (send mime StringToNumber contents req store q i w) (errors_of events).
Proof.
  cbn [foldl on_event listening]. apply on_event_after_data.
Qed.

(** X22.  Without a callback, [store] calls nothing and never marks the
    write as completed, whatever the write stream emits. *)
Theorem store_without_callback (A : Type) (events : list WriteEvent) (a : A) :
  store None events a = mkCompletion false a.
Proof.
  unfold store. generalize (mkCompletion false a).
  induction events as [|ev events IH]; intros c; [reflexivity|].
  cbn [foldl]. destruct ev; cbn [on_write_event on_error on_close]; apply IH.
Qed.

